(** * ETHUSDT perpetual 1-minute dataset builder: a shallow embedding

    This development models [ethusdt_1min.py]: the archive fetcher
    ([month_range], [download_single_file], [fetch_binance_zip_parallel]),
    the validator ([validate_data]), the series normalisers of steps 1-4,
    the open-interest polling loop of step 5, the merger of step 6 and the
    final sort and de-duplication of step 7.

    Modelling conventions.
    - Epoch-millisecond instants are [Z]; a [timestamp_utc] is never null
      because the script drops every line whose [open_time] is not numeric.
    - A float64 cell is [Null] (NaN) or [Val q] with [q] a rational.
    - The network, the zip/CSV decoders and the completion order of the
      worker pool are inputs, gathered in the record [World].
    - Python exceptions are values of [Exc]; [try_except] is the handler.
    - The lines a CSV reader hands over are typed: a frame has the columns
      its series has and a data line has a number in every numeric field.
      What can go wrong past that and is not caught by the script is
      modelled where it happens: a timestamp outside the datetime range, an
      open-interest reply that is a JSON object, the final write. *)

From Stdlib Require Import List ZArith QArith Bool Arith Lia String Strings.Byte.
From Stdlib Require Import Sorting.Sorted Sorting.Permutation.
Import ListNotations.

Local Open Scope Z_scope.

(* ------------------------------------------------------------------ *)
(** ** Exceptions and loop control *)

Inductive Exc (A : Type) : Type :=
| Ret (a : A)
| Raise (e : string).
Arguments Ret {A} a.
Arguments Raise {A} e.

Definition bind {A B : Type} (m : Exc A) (k : A -> Exc B) : Exc B :=
  match m with
  | Ret a => k a
  | Raise e => Raise e
  end.

Notation "x <- m ;; k" := (bind m (fun x => k))
  (at level 61, m at next level, right associativity).

(** [try: body except Exception as e: handler e] *)
Definition try_except {A : Type} (body : Exc A) (handler : string -> Exc A) : Exc A :=
  match body with
  | Ret a => Ret a
  | Raise e => handler e
  end.

(** What one iteration of a loop inside a function asks for: go on with the
    next iteration, or leave the function with a value. *)
Inductive Ctl (A : Type) : Type :=
| Continue
| Return (a : A).
Arguments Continue {A}.
Arguments Return {A} a.

(* ------------------------------------------------------------------ *)
(** ** Configuration *)

Definition SYMBOL : string := "ETHUSDT".
Definition MAX_WORKERS : nat := 10.
Definition RETRY_ATTEMPTS : nat := 3.
Definition TIMEOUT : Z := 30.

(* ------------------------------------------------------------------ *)
(** ** Helpers: [month_range] *)

Record date : Type := mk_date { year : Z; month : Z; day : Z }.

Definition date_leb (a b : date) : bool :=
  (year a <? year b)
  || ((year a =? year b)
      && ((month a <? month b) || ((month a =? month b) && (day a <=? day b)))).

Definition next_month (d : date) : date :=
  if month d =? 12 then mk_date (year d + 1) 1 1
  else mk_date (year d) (month d + 1) 1.

(** The generator's [while d <= end] loop, unrolled at most [fuel] times. *)
Fixpoint month_range_loop (fuel : nat) (d end_ : date) : list (Z * Z) :=
  match fuel with
  | O => []
  | S fuel' =>
      if date_leb d end_
      then (year d, month d) :: month_range_loop fuel' (next_month d) end_
      else []
  end.

Definition months_between (start end_ : date) : Z :=
  12 * (year end_ - year start) + (month end_ - month start).

Definition month_range (start end_ : date) : list (Z * Z) :=
  month_range_loop (Z.to_nat (months_between start end_ + 1)) start end_.

(* ------------------------------------------------------------------ *)
(** ** Helpers: [download_single_file] *)

Definition bytes : Type := list byte.

(** An archive URL: the series directory and the month of the file name. *)
Record Url : Type := mk_url { url_category : string; url_year : Z; url_month : Z }.

Record Response : Type := mk_response { status_code : Z; content : bytes }.

(** What one [requests.get] does: it raises or it answers. *)
Inductive Outcome : Type :=
| Fails (e : string)
| Answers (r : Response).

(** The archive server as the script sees it: the outcome of the [n]-th
    request (counted from 0) sent to a URL. *)
Definition Http : Type := Url -> nat -> Outcome.

Definition requests_get (http : Http) (url : Url) (n : nat) : Exc Response :=
  match http url n with
  | Fails e => Raise e
  | Answers r => Ret r
  end.

(** Body of the [for attempt in range(retries)] loop. *)
Definition attempt_body (http : Http) (url : Url) (retries attempt : nat)
  : Exc (Ctl (option bytes)) :=
  try_except
    (r <- requests_get http url attempt ;;
     if status_code r =? 200 then Ret (Return (Some (content r)))
     else if status_code r =? 404 then Ret (Return None)
     else Ret Continue (* time.sleep(0.5 * (attempt + 1)) *))
    (fun e =>
       if Nat.eqb attempt (retries - 1)
       then Ret (Return None) (* print "Failed to download" *)
       else Ret Continue (* time.sleep(1 * (attempt + 1)) *)).

(** The loop from [attempt] on, with [remaining] iterations left; falling
    out of the loop reaches the final [return None]. *)
Fixpoint attempts_from (http : Http) (url : Url) (retries attempt remaining : nat)
  : Exc (option bytes) :=
  match remaining with
  | O => Ret None
  | S remaining' =>
      match attempt_body http url retries attempt with
      | Raise e => Raise e
      | Ret (Return v) => Ret v
      | Ret Continue => attempts_from http url retries (S attempt) remaining'
      end
  end.

Definition download_single_file (http : Http) (url : Url) (retries : nat)
  : Exc (option bytes) :=
  attempts_from http url retries 0 retries.

(* ------------------------------------------------------------------ *)
(** ** Tables *)

(** A float64 cell: NaN, or a number. *)
Inductive Cell : Type :=
| Null
| Val (q : Q).

(** A row carries its key apart from the other cells, which follow the
    order of [columns]. *)
Record Row : Type := mk_row { timestamp_utc : Z; cells : list Cell }.

(** [columns] names the columns other than the key [timestamp_utc]. *)
Record DataFrame : Type := mk_df { columns : list string; rows : list Row }.

Fixpoint col_index (c : string) (cols : list string) : option nat :=
  match cols with
  | [] => None
  | x :: cols' =>
      if String.eqb c x then Some O
      else match col_index c cols' with
           | Some i => Some (S i)
           | None => None
           end
  end.

(** [df[c]] at one row; [None] when the table has no column [c]. *)
Definition cell_at (df : DataFrame) (c : string) (r : Row) : option Cell :=
  match col_index c (columns df) with
  | Some i => nth_error (cells r) i
  | None => None
  end.

(** The values of column [c], top to bottom. *)
Definition column (df : DataFrame) (c : string) : list (option Cell) :=
  map (cell_at df c) (rows df).

Definition timestamps (df : DataFrame) : list Z :=
  map timestamp_utc (rows df).

Definition is_null (c : Cell) : bool :=
  match c with
  | Null => true
  | Val _ => false
  end.

(** Every row has one cell per column. *)
Definition well_formed (df : DataFrame) : bool :=
  forallb (fun r => Nat.eqb (List.length (cells r)) (List.length (columns df))) (rows df).

(** [pd.concat(dfs, ignore_index=True)] on frames of one schema. *)
Definition pd_concat {L : Type} (dfs : list (list L)) : list L := List.concat dfs.

(** [df.drop_duplicates(subset=['timestamp_utc'], keep='first')]: [seen]
    holds the keys met so far. *)
Fixpoint drop_duplicates_from (seen : list Z) (rs : list Row) : list Row :=
  match rs with
  | [] => []
  | r :: rs' =>
      if existsb (Z.eqb (timestamp_utc r)) seen
      then drop_duplicates_from seen rs'
      else r :: drop_duplicates_from (timestamp_utc r :: seen) rs'
  end.

Definition drop_duplicates (df : DataFrame) : DataFrame :=
  mk_df (columns df) (drop_duplicates_from [] (rows df)).

(** [df['timestamp_utc'].duplicated()]: marks every key met before. *)
Fixpoint duplicated_from (seen : list Z) (ks : list Z) : list bool :=
  match ks with
  | [] => []
  | k :: ks' =>
      existsb (Z.eqb k) seen :: duplicated_from (k :: seen) ks'
  end.

Definition duplicated (ks : list Z) : list bool := duplicated_from [] ks.

Definition count_true (bs : list bool) : nat := List.length (filter (fun b => b) bs).

(** [df.sort_values('timestamp_utc')], as a stable insertion sort. *)
Fixpoint insert_row (r : Row) (rs : list Row) : list Row :=
  match rs with
  | [] => [r]
  | x :: rs' =>
      if timestamp_utc r <=? timestamp_utc x then r :: x :: rs'
      else x :: insert_row r rs'
  end.

Fixpoint sort_rows (rs : list Row) : list Row :=
  match rs with
  | [] => []
  | r :: rs' => insert_row r (sort_rows rs')
  end.

Definition sort_values (df : DataFrame) : DataFrame :=
  mk_df (columns df) (sort_rows (rows df)).

(** [series.diff()] without its leading NaT. *)
Fixpoint diff (ks : list Z) : list Z :=
  match ks with
  | a :: ((b :: _) as ks') => (b - a) :: diff ks'
  | _ => []
  end.

Definition list_max (ds : list Z) : option Z :=
  match ds with
  | [] => None
  | d :: ds' => Some (fold_left Z.max ds' d)
  end.

(* ------------------------------------------------------------------ *)
(** ** Helpers: [validate_data] *)

(** What [validate_data] prints. *)
Record Report : Type := mk_report {
  null_counts : list nat;      (* per column *)
  dupes : nat;
  max_gap : option Z;          (* milliseconds *)
  gaps : nat                   (* deltas above 120 s *)
}.

Definition count_nulls (df : DataFrame) : list nat :=
  map (fun i => List.length (filter (fun r => is_null (nth i (cells r) Null)) (rows df)))
      (seq 0 (List.length (columns df))).

Definition validate_data (df : DataFrame) : DataFrame * Report :=
  let nulls := count_nulls df in
  let d := count_true (duplicated (timestamps df)) in
  let df1 := if Nat.ltb 0 d then drop_duplicates df else df in
  let time_diffs :=
    if Nat.ltb 1 (List.length (rows df1))
    then diff (timestamps (sort_values df1))
    else [] in
  (df1, mk_report nulls d (list_max time_diffs)
                  (List.length (filter (fun x => 120000 <? x) time_diffs))).

(* ------------------------------------------------------------------ *)
(** ** Archive lines as decoded by [pd.read_csv] *)

(** A line of a headerless archive: a stray header line, whose [open_time]
    is not numeric, or a data line. *)
Inductive RawLine (A : Type) : Type :=
| HeaderLine
| DataLine (a : A).
Arguments HeaderLine {A}.
Arguments DataLine {A} a.

(** The twelve positional columns of a kline archive. *)
Record KlineLine : Type := mk_kline {
  open_time : Z;
  open : Q; high : Q; low : Q; close : Q;
  volume : Q;
  close_time : Z;
  quote_volume : Q;
  num_trades : Z;
  taker_buy_base_vol : Q;
  taker_buy_quote_vol : Q;
  ignore : Q
}.

(** The twelve positional columns of a mark-price or index-price archive:
    four prices and placeholders. *)
Record PriceLine : Type := mk_price {
  p_open_time : Z;
  p_open : Q; p_high : Q; p_low : Q; p_close : Q;
  p_ignore1 : Q;
  p_close_time : Z;
  p_ignore2_6 : list Q
}.

(** The two columns the script keeps of a funding-rate archive. *)
Record FundingLine : Type := mk_funding { fundingTime : Z; fundingRate : Q }.

(** One object of the open-interest endpoint's JSON array. *)
Record Snapshot : Type := mk_snapshot { timestamp : Z; sumOpenInterest : Q }.

(** [df.dropna(subset=['open_time'])] after [pd.to_numeric(errors='coerce')] *)
Fixpoint dropna {A : Type} (ls : list (RawLine A)) : list A :=
  match ls with
  | [] => []
  | HeaderLine :: ls' => dropna ls'
  | DataLine a :: ls' => a :: dropna ls'
  end.

(** [pd.to_datetime(series, unit="ms", utc=True)] raises
    [OutOfBoundsDatetime] on an instant whose nanoseconds do not fit 64
    bits; otherwise the instants are the same numbers. *)
Definition MAX_MS : Z := 9223372036854.

Definition in_datetime_range (t : Z) : bool :=
  (- MAX_MS <=? t) && (t <=? MAX_MS).

Definition to_datetime (ts : list Z) : Exc unit :=
  if forallb in_datetime_range ts then Ret tt
  else Raise "OutOfBoundsDatetime".

(** The conversion of [open_time] on the lines that [dropna] keeps, for a
    series that was fetched. *)
Definition open_times_converted {A : Type} (key : A -> Z)
           (raw : option (list (RawLine A))) : Exc unit :=
  match raw with
  | Some ls => to_datetime (map key (dropna ls))
  | None => Ret tt
  end.

(* ------------------------------------------------------------------ *)
(** ** Steps 1-4: series normalisers *)

Definition ohlcv_columns : list string :=
  ["open"; "high"; "low"; "close"; "volume"; "quote_volume"; "num_trades";
   "taker_buy_base_vol"; "taker_buy_quote_vol";
   "taker_sell_base_vol"; "taker_sell_quote_vol"]%string.

Definition kline_row (k : KlineLine) : Row :=
  mk_row (open_time k)
    [Val (open k); Val (high k); Val (low k); Val (close k);
     Val (volume k); Val (quote_volume k); Val (inject_Z (num_trades k));
     Val (taker_buy_base_vol k); Val (taker_buy_quote_vol k);
     Val (volume k - taker_buy_base_vol k)%Q;
     Val (quote_volume k - taker_buy_quote_vol k)%Q].

(** Step 1, from the column assignment to the taker sell volumes. *)
Definition normalize_klines (raw : list (RawLine KlineLine)) : DataFrame :=
  mk_df ohlcv_columns (map kline_row (dropna raw)).

Definition mark_columns : list string :=
  ["mark_open"; "mark_high"; "mark_low"; "mark_close"]%string.

Definition index_columns : list string :=
  ["index_open"; "index_high"; "index_low"; "index_close"]%string.

Definition price_row (p : PriceLine) : Row :=
  mk_row (p_open_time p) [Val (p_open p); Val (p_high p); Val (p_low p); Val (p_close p)].

(** Steps 2 and 3 up to [validate_data]; [cols] is [mark_columns] or
    [index_columns]. *)
Definition normalize_price (cols : list string) (raw : list (RawLine PriceLine)) : DataFrame :=
  mk_df cols (map price_row (dropna raw)).

(** Step 4: [funding[["fundingTime","fundingRate"]].rename(...)] *)
Definition normalize_funding (raw : list FundingLine) : DataFrame :=
  mk_df ["fundingRate"%string]
        (map (fun f => mk_row (fundingTime f) [Val (fundingRate f)]) raw).

(** Step 5: the frame built from [oi_data]. *)
Definition normalize_oi (oi_data : list Snapshot) : DataFrame :=
  mk_df ["open_interest"%string]
        (map (fun s => mk_row (timestamp s) [Val (sumOpenInterest s)]) oi_data).

(* ------------------------------------------------------------------ *)
(** ** The world outside the script *)

Record OIParams : Type := mk_params {
  symbol : string; period : string; limit : Z; startTime : option Z
}.

(** What one request to the open-interest endpoint ends in: [requests.get]
    or [r.json()] raises, or a page of snapshots comes back (a JSON array),
    or a JSON object does, as the API sends with an error code; iterating a
    [dict] yields its keys. *)
Inductive OIReply : Type :=
| OIFails (e : string)
| OIPage (data : list Snapshot)
| OIObject (keys : list string).

Record World : Type := mk_world {
  today : date;
  http : Http;
  (** the order in which [as_completed] hands the downloads back *)
  as_completed : list Url -> list Url;
  (** [zipfile.ZipFile(io.BytesIO(content))] and its members *)
  unzip : bytes -> Exc (list bytes);
  (** [pd.read_csv] on a member of each kind of archive *)
  csv_klines : bytes -> Exc (list (RawLine KlineLine));
  csv_price : bytes -> Exc (list (RawLine PriceLine));
  csv_funding : bytes -> Exc (list FundingLine);
  (** the reply to the [n]-th request of step 5, sent with these parameters *)
  oi_get : nat -> OIParams -> OIReply;
  (** [to_parquet], the final report and the summary file *)
  export : DataFrame -> Exc unit
}.

(* ------------------------------------------------------------------ *)
(** ** Helpers: [fetch_binance_zip_parallel] *)

Definition START : date := mk_date 2019 9 1.

Definition archive_urls (category : string) (start end_ : date) : list Url :=
  map (fun ym => mk_url category (fst ym) (snd ym)) (month_range start end_).

(** The [for inner in z.namelist()] loop inside the [try]: frames are
    appended to [dfs] one by one, so those read before an exception stay. *)
Fixpoint read_members {L : Type} (read_csv : bytes -> Exc (list L))
         (members : list bytes) (dfs : list (list L)) : list (list L) * Exc unit :=
  match members with
  | [] => (dfs, Ret tt)
  | f :: members' =>
      match read_csv f with
      | Raise e => (dfs, Raise e)
      | Ret df => read_members read_csv members' (dfs ++ [df])
      end
  end.

(** The body of the [for future in as_completed(...)] loop once the
    download has returned [content]. *)
Definition collect {L : Type} (w : World) (read_csv : bytes -> Exc (list L))
           (content : option bytes) (dfs : list (list L)) : list (list L) :=
  match content with
  | None | Some [] => dfs
  | Some body =>
      match unzip w body with
      | Raise e => dfs (* print "Error processing" *)
      | Ret members => fst (read_members read_csv members dfs)
      end
  end.

(** All downloads of one series, in completion order; [future.result()]
    re-raises whatever the download raised. *)
Fixpoint gather {L : Type} (w : World) (read_csv : bytes -> Exc (list L))
         (urls : list Url) (dfs : list (list L)) : Exc (list (list L)) :=
  match urls with
  | [] => Ret dfs
  | url :: urls' =>
      content <- download_single_file (http w) url RETRY_ATTEMPTS ;;
      gather w read_csv urls' (collect w read_csv content dfs)
  end.

Definition fetch_binance_zip_parallel {L : Type} (w : World)
           (read_csv : bytes -> Exc (list L)) (category : string)
  : Exc (option (list L)) :=
  let urls := archive_urls category START (today w) in
  dfs <- gather w read_csv (as_completed w urls) [] ;;
  match dfs with
  | [] => Ret None
  | _ => Ret (Some (pd_concat dfs))
  end.

(** What step 4 does to a member inside its [try]: [pd.read_csv], then
    the conversion of [fundingTime]. *)
Definition read_funding (w : World) (f : bytes) : Exc (list FundingLine) :=
  fd <- csv_funding w f ;;
  _ <- to_datetime (map fundingTime fd) ;;
  Ret fd.

(** Step 4 repeats the same loop in line for the funding-rate archives. *)
Definition fetch_funding (w : World) : Exc (option (list FundingLine)) :=
  let urls := archive_urls "fundingRate" START (today w) in
  fund_dfs <- gather w (read_funding w) (as_completed w urls) [] ;;
  match fund_dfs with
  | [] => Ret None
  | _ => Ret (Some (pd_concat fund_dfs))
  end.

(* ------------------------------------------------------------------ *)
(** ** Step 5: the open-interest polling loop *)

Definition PAGE_SIZE : nat := 500.

(** The Python list [oi_data] is [oi_data] followed by [stray]: the
    snapshots, then the keys of a JSON object reply, after which the loop
    always ends. *)
Record PollState : Type := mk_poll {
  params : OIParams;
  oi_data : list Snapshot;
  sent : list OIParams;         (* the requests issued so far, oldest first *)
  stray : list string
}.

Definition initial_poll : PollState :=
  mk_poll (mk_params SYMBOL "1m" 500 None) [] [] [].

(** Stands for [data[-1]] where [data] is empty; the loop never asks. *)
Definition no_snapshot : Snapshot := mk_snapshot 0 0.

(** How an iteration of [while True] ends. *)
Inductive Loop : Type :=
| Break (st : PollState)
| Next (st : PollState).

Definition set_startTime (p : OIParams) (t : Z) : OIParams :=
  mk_params (symbol p) (period p) (limit p) (Some t).

(** The part of the loop body below [data = r.json()]. *)
Definition on_page (data : list Snapshot) (st : PollState) : Loop :=
  match data with
  | [] => Break st
  | _ =>
      let st1 := mk_poll (params st) (oi_data st ++ data) (sent st) (stray st) in
      if Nat.ltb (List.length data) PAGE_SIZE then Break st1
      else Next (mk_poll
                   (set_startTime (params st1)
                      (timestamp (last data no_snapshot) + 60000))
                   (oi_data st1) (sent st1) (stray st1))
  end.

(** The same part when [data] is a [dict]: its keys go into [oi_data];
    with fewer than 500 of them the loop breaks, and with more
    [data[-1]] raises [KeyError], which the [except] turns into a break. *)
Definition on_object (keys : list string) (st : PollState) : Loop :=
  match keys with
  | [] => Break st
  | _ => Break (mk_poll (params st) (oi_data st) (sent st) (stray st ++ keys))
  end.

(** One iteration: the request, then the page or the [except] branch. *)
Definition poll_iteration (get : nat -> OIParams -> OIReply) (st : PollState) : Loop :=
  let st0 := mk_poll (params st) (oi_data st) (sent st ++ [params st]) (stray st) in
  match get (List.length (sent st)) (params st) with
  | OIFails e => Break st0 (* print "Error fetching OI" *)
  | OIPage data => on_page data st0
  | OIObject keys => on_object keys st0
  end.

(** [while True], run for at most [fuel] iterations; [None] when the loop
    is still running after them. *)
Fixpoint poll_loop (fuel : nat) (get : nat -> OIParams -> OIReply) (st : PollState)
  : option PollState :=
  match fuel with
  | O => None
  | S fuel' =>
      match poll_iteration get st with
      | Break st' => Some st'
      | Next st' => poll_loop fuel' get st'
      end
  end.

Definition poll_open_interest (fuel : nat) (w : World) : option PollState :=
  poll_loop fuel (oi_get w) initial_poll.

(** The lines below the loop, outside any [try].  Nothing collected
    gives no frame.  Keys of a JSON object among the items make
    [pd.DataFrame(oi_data)] or [df_oi["timestamp"]] raise.  Otherwise the
    timestamps are converted and the frame is built. *)
Definition open_interest_frame (st : PollState) : Exc (option DataFrame) :=
  match stray st with
  | _ :: _ =>
      match oi_data st with
      | [] => Raise "KeyError: 'timestamp'"
      | _ => Raise "AttributeError: 'str' object has no attribute 'keys'"
      end
  | [] =>
      match oi_data st with
      | [] => Ret None
      | data =>
          _ <- to_datetime (map timestamp data) ;;
          Ret (Some (normalize_oi data))
      end
  end.

(* ------------------------------------------------------------------ *)
(** ** Step 6: merging *)

Definition nulls (n : nat) : list Cell := repeat Null n.

(** The rows a left row gives in [left.merge(right, on="timestamp_utc",
    how="left")]: one per matching right row, in the right table's order,
    or itself padded with nulls. *)
Definition join_row (right : DataFrame) (l : Row) : list Row :=
  match filter (fun r => timestamp_utc r =? timestamp_utc l) (rows right) with
  | [] => [mk_row (timestamp_utc l) (cells l ++ nulls (List.length (columns right)))]
  | ms => map (fun r => mk_row (timestamp_utc l) (cells l ++ cells r)) ms
  end.

Definition merge_left (left right : DataFrame) : DataFrame :=
  mk_df (columns left ++ columns right) (flat_map (join_row right) (rows left)).

Fixpoint set_nth {A : Type} (i : nat) (x : A) (l : list A) {struct l} : list A :=
  match l, i with
  | [], _ => []
  | _ :: l', O => x :: l'
  | y :: l', S i' => y :: set_nth i' x l'
  end.

(** [series.ffill()] on the column at position [i]; [prev] is the last
    non-null value above, [Null] while there is none. *)
Fixpoint ffill_rows (i : nat) (prev : Cell) (rs : list Row) : list Row :=
  match rs with
  | [] => []
  | r :: rs' =>
      match nth i (cells r) Null with
      | Null => mk_row (timestamp_utc r) (set_nth i prev (cells r)) :: ffill_rows i prev rs'
      | Val q => r :: ffill_rows i (Val q) rs'
      end
  end.

(** [df[c] = df[c].ffill()]; the script applies it to a column the merge
    has just added. *)
Definition ffill (c : string) (df : DataFrame) : DataFrame :=
  match col_index c (columns df) with
  | Some i => mk_df (columns df) (ffill_rows i Null (rows df))
  | None => df
  end.

Definition merge_if (secondary : option DataFrame) (full : DataFrame) : DataFrame :=
  match secondary with
  | Some s => merge_left full s
  | None => full
  end.

Definition merge_funding (funding : option DataFrame) (full : DataFrame) : DataFrame :=
  match funding with
  | Some f => ffill "fundingRate" (merge_left full f)
  | None => full
  end.

Definition step6 (df : DataFrame) (mark index funding df_oi : option DataFrame)
  : DataFrame :=
  merge_if df_oi (merge_funding funding (merge_if index (merge_if mark df))).

(* ------------------------------------------------------------------ *)
(** ** Step 7: final validation *)

Definition cell_ltb (a b : Cell) : bool :=
  match a, b with
  | Val x, Val y => negb (Qle_bool y x)
  | _, _ => false
  end.

Definition get (df : DataFrame) (c : string) (r : Row) : Cell :=
  match cell_at df c r with
  | Some v => v
  | None => Null
  end.

Definition invalid_ohlc (df : DataFrame) (r : Row) : bool :=
  cell_ltb (get df "high" r) (get df "low" r)
  || cell_ltb (get df "high" r) (get df "open" r)
  || cell_ltb (get df "high" r) (get df "close" r)
  || cell_ltb (get df "open" r) (get df "low" r)
  || cell_ltb (get df "close" r) (get df "low" r).

(** The sort and the duplicate removal of step 7. *)
Definition step7 (full : DataFrame) : DataFrame :=
  drop_duplicates (sort_values full).

Definition ohlc_warnings (full : DataFrame) : nat :=
  List.length (filter (invalid_ohlc full) (rows full)).

(* ------------------------------------------------------------------ *)
(** ** The script, top to bottom *)

(** How a run ends: the table is written, an exception reaches the top
    level, or the polling loop of step 5 has not ended within the fuel. *)
Inductive Run (A : Type) : Type :=
| Done (a : A)
| Aborted (e : string)
| Polling.
Arguments Done {A} a.
Arguments Aborted {A} e.
Arguments Polling {A}.

Record Output : Type := mk_output {
  table : DataFrame;                 (* what [to_parquet] receives *)
  reports : list Report;             (* OHLCV, mark, index *)
  invalid_ohlc_rows : nat
}.

Definition lift {A B : Type} (m : Exc A) (k : A -> Run B) : Run B :=
  match m with
  | Ret a => k a
  | Raise e => Aborted e
  end.

Definition validated (df : option DataFrame) : option DataFrame :=
  option_map (fun d => fst (validate_data d)) df.

Definition report_of (df : option DataFrame) : list Report :=
  match df with
  | Some d => [snd (validate_data d)]
  | None => []
  end.

Definition pipeline (fuel : nat) (w : World) : Run Output :=
  (* step 1 *)
  lift (fetch_binance_zip_parallel w (csv_klines w) "klines") (fun klines =>
  match klines with
  | None => Aborted "Failed to fetch klines data!"
  | Some raw =>
      lift (open_times_converted open_time (Some raw)) (fun _ =>
      let ohlcv := normalize_klines raw in
      let df := fst (validate_data ohlcv) in
      (* step 2 *)
      lift (fetch_binance_zip_parallel w (csv_price w) "markPriceKlines") (fun raw_mark =>
      lift (open_times_converted p_open_time raw_mark) (fun _ =>
      let mark0 := option_map (normalize_price mark_columns) raw_mark in
      let mark := validated mark0 in
      (* step 3 *)
      lift (fetch_binance_zip_parallel w (csv_price w) "indexPriceKlines") (fun raw_index =>
      lift (open_times_converted p_open_time raw_index) (fun _ =>
      let index0 := option_map (normalize_price index_columns) raw_index in
      let index := validated index0 in
      (* step 4 *)
      lift (fetch_funding w) (fun raw_funding =>
      let funding := option_map normalize_funding raw_funding in
      (* step 5 *)
      match poll_open_interest fuel w with
      | None => Polling
      | Some st =>
          lift (open_interest_frame st) (fun df_oi =>
          (* steps 6 and 7 *)
          let full := step7 (step6 df mark index funding df_oi) in
          lift (export w full) (fun _ =>
          Done (mk_output full
                  (snd (validate_data ohlcv) :: report_of mark0 ++ report_of index0)
                  (ohlc_warnings full))))
      end))))))
  end).

(* ------------------------------------------------------------------ *)
(** ** Specification vocabulary *)

(** What the right table contributes to a left row when its keys are
    unique: the cells of the one match, or nulls. *)
Definition contribution (right : DataFrame) (l : Row) : list Cell :=
  match filter (fun r => timestamp_utc r =? timestamp_utc l) (rows right) with
  | [] => nulls (List.length (columns right))
  | r :: _ => cells r
  end.

(** What a merge must leave alone: the number of rows, their keys, and
    the values of the columns the left table already had. *)
Definition frame_preserved (left right merged : DataFrame) : Prop :=
  List.length (rows merged) = List.length (rows left) /\
  timestamps merged = timestamps left /\
  columns merged = columns left ++ columns right /\
  forall c, In c (columns left) -> column merged c = column left c.

(** Ascending order of the keys, the order [sort_values] aims at. *)
Definition key_le (a b : Row) : Prop := timestamp_utc a <= timestamp_utc b.

(** The month a date falls in, counted from year 0. *)
Definition month_index (d : date) : Z := 12 * year d + month d.

Definition valid_month (d : date) : Prop := 1 <= month d <= 12.

(** The last non-null value of the cell at position [i] down the rows,
    [prev] when there is none: what a forward fill carries. *)
Fixpoint last_non_null (i : nat) (prev : Cell) (rs : list Row) : Cell :=
  match rs with
  | [] => prev
  | r :: rs' =>
      match nth i (cells r) Null with
      | Null => last_non_null i prev rs'
      | Val q => last_non_null i (Val q) rs'
      end
  end.

(** What the right table appends to a left row, once per row the join
    gives: the cells of each match, or one run of nulls. *)
Definition appended (right : DataFrame) (l : Row) : list (list Cell) :=
  match filter (fun r => timestamp_utc r =? timestamp_utc l) (rows right) with
  | [] => [nulls (List.length (columns right))]
  | ms => map cells ms
  end.

(** A row with more cells at its end. *)
Definition extend (l : Row) (e : list Cell) : Row :=
  mk_row (timestamp_utc l) (cells l ++ e).

(** Every cell of column [c] is null. *)
Definition all_null (df : DataFrame) (c : string) : Prop :=
  forall r, In r (rows df) -> cell_at df c r = Some Null.



(** An attempt that settles nothing: the request raised, or was answered
    with a status other than 200 and 404. *)
Definition transient (o : Outcome) : bool :=
  match o with
  | Fails _ => true
  | Answers r => negb (status_code r =? 200) && negb (status_code r =? 404)
  end.

(** What the download of [url] hands to the loop of the fetcher. *)
Definition downloaded (w : World) (url : Url) : option bytes :=
  match download_single_file (http w) url RETRY_ATTEMPTS with
  | Ret v => v
  | Raise _ => None
  end.

(** The frames one archive adds to [dfs]. *)
Definition archive_frames {L : Type} (w : World) (read_csv : bytes -> Exc (list L))
           (url : Url) : list (list L) :=
  collect w read_csv (downloaded w url) [].

(** The same world with another completion order. *)
Definition with_order (w : World) (order : list Url -> list Url) : World :=
  mk_world (today w) (http w) order (unzip w) (csv_klines w) (csv_price w)
           (csv_funding w) (oi_get w) (export w).

(** Two fetches that differ by the order of their rows at most. *)
Definition same_rows {L : Type} (a b : Exc (option (list L))) : Prop :=
  match a, b with
  | Ret None, Ret None => True
  | Ret (Some l), Ret (Some l') => Permutation l l'
  | _, _ => False
  end.

(** How often the key of [l] occurs in the right table. *)
Definition matches (right : DataFrame) (l : Row) : nat :=
  List.length (filter (fun r => timestamp_utc r =? timestamp_utc l) (rows right)).

(** What a forward fill of column [c] puts in row [n]: the last non-null
    value of the column in rows 0 to [n], as they stand. *)
Definition last_known (df : DataFrame) (c : string) (n : nat) : Cell :=
  match col_index c (columns df) with
  | Some i => last_non_null i Null (firstn (S n) (rows df))
  | None => Null
  end.

(* ------------------------------------------------------------------ *)
(** ** Sample inputs *)

(** A page of [n] one-minute snapshots starting at [t0]. *)
Definition page_of (t0 : Z) (n : nat) : list Snapshot :=
  map (fun i => mk_snapshot (t0 + 60000 * Z.of_nat i) (250000 # 1)) (seq 0 n).

(** An endpoint that serves 500, 500 and 200 snapshots, then nothing. *)
Definition sample_oi_get : nat -> OIParams -> OIReply :=
  fun n _ =>
    match n with
    | 0%nat => OIPage (page_of 1700000000000 500)
    | 1%nat => OIPage (page_of 1700030000000 500)
    | 2%nat => OIPage (page_of 1700060000000 200)
    | _ => OIPage []
    end.


(** A server that treats every request alike. *)
Definition always (o : Outcome) : Http := fun _ _ => o.

(** Two kline lines of September 2019 and two of October 2019. *)
Definition sep1 : KlineLine :=
  mk_kline 1567296000000 (172#1) (173#1) (171#1) (1725#10) (100#1)
           1567296059999 (17200#1) 40 (60#1) (10320#1) 0.
Definition sep2 : KlineLine :=
  mk_kline 1567296060000 (1725#10) (174#1) (172#1) (1735#10) (80#1)
           1567296119999 (13840#1) 31 (30#1) (5190#1) 0.
Definition oct1 : KlineLine :=
  mk_kline 1569888000000 (180#1) (181#1) (179#1) (1805#10) (50#1)
           1569888059999 (9000#1) 22 (25#1) (4500#1) 0.
Definition oct2 : KlineLine :=
  mk_kline 1569888060000 (1805#10) (182#1) (180#1) (181#1) (70#1)
           1569888119999 (12670#1) 27 (20#1) (3620#1) 0.

(** The funding settlement of 1 September 2019, 00:00 UTC. *)
Definition sep_funding : FundingLine := mk_funding 1567296000000 (1 # 10000).

(** A run on 2 November 2019.  The kline archives of September and October
    are served, November is not published yet (404).  The funding archive
    of September is served, that of October times out at every attempt.
    No mark-price or index-price archive exists.  Later months complete
    first.  The open-interest endpoint returns an empty page. *)
Definition sample_http : Http :=
  fun u _ =>
    if String.eqb (url_category u) "klines" then
      if url_month u =? 9 then Answers (mk_response 200 [x01])
      else if url_month u =? 10 then Answers (mk_response 200 [x02])
      else Answers (mk_response 404 [])
    else if String.eqb (url_category u) "fundingRate" then
      if url_month u =? 9 then Answers (mk_response 200 [x03])
      else if url_month u =? 10 then Fails "ReadTimeout"
      else Answers (mk_response 404 [])
    else Answers (mk_response 404 []).

Definition sample_world : World :=
  mk_world
    (mk_date 2019 11 2)
    sample_http
    (@rev Url)
    (fun b => Ret [b])
    (fun b =>
       match b with
       | [x01] => Ret [HeaderLine; DataLine sep1; DataLine sep2]
       | [x02] => Ret [DataLine oct1; DataLine oct2]
       | _ => Raise "EmptyDataError"
       end)
    (fun _ => Raise "EmptyDataError")
    (fun b =>
       match b with
       | [x03] => Ret [sep_funding]
       | _ => Raise "EmptyDataError"
       end)
    (fun _ _ => OIPage [])
    (fun _ => Ret tt).

(** The sample run against an open-interest endpoint that answers with an
    error object, as the API does to a request it refuses. *)
Definition error_reply_world : World :=
  mk_world (today sample_world) (http sample_world) (as_completed sample_world)
           (unzip sample_world) (csv_klines sample_world) (csv_price sample_world)
           (csv_funding sample_world)
           (fun _ _ => OIObject ["code"; "msg"]%string)
           (export sample_world).

(** The same run with the downloads completing in calendar order. *)
Definition sample_world_in_order : World :=
  mk_world (today sample_world) (http sample_world) (fun urls => urls)
           (unzip sample_world) (csv_klines sample_world) (csv_price sample_world)
           (csv_funding sample_world) (oi_get sample_world) (export sample_world).

(* ================================================================== *)
(** * Properties *)

(* ------------------------------------------------------------------ *)
(** ** The month generator *)

Lemma next_month_index (d : date) :
  valid_month d ->
  month_index (next_month d) = month_index d + 1 /\ valid_month (next_month d).
Proof.
  unfold valid_month, month_index, next_month. intros H.
  destruct (month d =? 12) eqn:E; cbn [year month day].
  - apply Z.eqb_eq in E. lia.
  - apply Z.eqb_neq in E. lia.
Qed.

Lemma date_leb_index (d e : date) :
  valid_month d -> valid_month e ->
  date_leb d e = true -> month_index d <= month_index e.
Proof.
  unfold valid_month, month_index, date_leb. intros Hd He H.
  apply orb_true_iff in H. destruct H as [H | H].
  - apply Z.ltb_lt in H. lia.
  - apply andb_true_iff in H. destruct H as [Hy H]. apply Z.eqb_eq in Hy.
    apply orb_true_iff in H. destruct H as [H | H].
    + apply Z.ltb_lt in H. lia.
    + apply andb_true_iff in H. destruct H as [Hm _]. apply Z.eqb_eq in Hm. lia.
Qed.

(** Once the bound has run out the loop test has failed: more iterations
    yield nothing more. *)
Lemma month_range_loop_enough (fuel extra : nat) (d e : date) :
  valid_month d -> valid_month e ->
  month_index e - month_index d + 1 <= Z.of_nat fuel ->
  month_range_loop (fuel + extra) d e = month_range_loop fuel d e.
Proof.
  revert d; induction fuel as [| fuel IH]; intros d Hd He Hfuel.
  - destruct extra as [| extra]; simpl; [reflexivity |].
    destruct (date_leb d e) eqn:E; [| reflexivity].
    apply date_leb_index in E; try assumption. lia.
  - simpl. destruct (date_leb d e); [| reflexivity].
    destruct (next_month_index d Hd) as [Hi Hv].
    f_equal. apply IH; try assumption. lia.
Qed.

(** [month_range] is the generator run to its end: the bound it gives the
    loop is never what stops it. *)
Lemma month_range_complete (start end_ : date) (extra : nat) :
  valid_month start -> valid_month end_ ->
  month_range_loop (Z.to_nat (months_between start end_ + 1) + extra) start end_
  = month_range start end_.
Proof.
  intros Hs He. unfold month_range. apply month_range_loop_enough; try assumption.
  unfold months_between, month_index. lia.
Qed.

Lemma month_range_sample :
  month_range START (mk_date 2020 2 14)
  = [(2019, 9); (2019, 10); (2019, 11); (2019, 12); (2020, 1); (2020, 2)].
Proof. reflexivity. Qed.

(* ------------------------------------------------------------------ *)
(** ** The retry loop of [download_single_file] *)

Section Download.

Variable http_ : Http.
Variable url : Url.

(** An iteration never lets an exception through: the handler turns
    each one into a decision. *)
Lemma attempt_body_returns (retries attempt : nat) :
  exists c, attempt_body http_ url retries attempt = Ret c.
Proof.
  unfold attempt_body, requests_get, try_except, bind.
  destruct (http_ url attempt) as [e | r].
  - destruct (Nat.eqb attempt (retries - 1)); eauto.
  - destruct (status_code r =? 200); [eauto |].
    destruct (status_code r =? 404); eauto.
Qed.

(** A returned body is the content of a 200 answer to one of the
    attempts. *)
Lemma attempt_body_content (retries attempt : nat) (body : bytes) :
  attempt_body http_ url retries attempt = Ret (Return (Some body)) ->
  exists r, http_ url attempt = Answers r /\ status_code r = 200 /\ content r = body.
Proof.
  unfold attempt_body, requests_get, try_except, bind.
  destruct (http_ url attempt) as [e | r].
  - destruct (Nat.eqb attempt (retries - 1)); discriminate.
  - destruct (status_code r =? 200) eqn:E200.
    + intros H; injection H as <-. exists r. repeat split. now apply Z.eqb_eq.
    + destruct (status_code r =? 404); discriminate.
Qed.

Lemma attempts_from_returns (retries remaining attempt : nat) :
  exists v, attempts_from http_ url retries attempt remaining = Ret v.
Proof.
  revert attempt; induction remaining as [| k IH]; intros attempt; simpl.
  - eauto.
  - destruct (attempt_body_returns retries attempt) as [[| v] ->]; eauto.
Qed.

Lemma attempts_from_content (retries remaining attempt : nat) (body : bytes) :
  attempts_from http_ url retries attempt remaining = Ret (Some body) ->
  exists n r, (attempt <= n < attempt + remaining)%nat /\
              http_ url n = Answers r /\ status_code r = 200 /\ content r = body.
Proof.
  revert attempt; induction remaining as [| k IH]; intros attempt; simpl.
  - discriminate.
  - destruct (attempt_body http_ url retries attempt) as [[| v] | e] eqn:E.
    + intros H. destruct (IH _ H) as (n & r & Hn & Hr).
      exists n, r. split; [lia | exact Hr].
    + intros H; injection H as ->.
      destruct (attempt_body_content _ _ _ E) as (r & Hr).
      exists attempt, r. split; [lia | exact Hr].
    + discriminate.
Qed.

Lemma download_single_file_returns (retries : nat) :
  exists v, download_single_file http_ url retries = Ret v.
Proof. apply attempts_from_returns. Qed.

(** A 200 answer at attempt [n], after [n] attempts that each ended in
    an exception or in a status other than 200 and 404, is returned. *)
Lemma attempts_from_first_200 (retries : nat) (r : Response) :
  forall k attempt remaining,
    (k < remaining)%nat ->
    (forall i, (attempt <= i < attempt + k)%nat ->
               attempt_body http_ url retries i = Ret Continue) ->
    http_ url (attempt + k)%nat = Answers r ->
    status_code r = 200 ->
    attempts_from http_ url retries attempt remaining = Ret (Some (content r)).
Proof.
  induction k as [| k IH]; intros attempt remaining Hk Hbefore Hget H200;
    destruct remaining as [| remaining']; try lia; simpl.
  - unfold attempt_body, requests_get, try_except, bind.
    rewrite Nat.add_0_r in Hget. rewrite Hget, H200. reflexivity.
  - rewrite (Hbefore attempt) by lia.
    apply IH; [lia | | | exact H200].
    + intros i Hi. apply Hbefore. lia.
    + replace (S attempt + k)%nat with (attempt + S k)%nat by lia. exact Hget.
Qed.

End Download.

(** C9. [download_single_file] is total at its interface: whatever the
    server does at each attempt (any status code, any raised exception) and
    whatever the retry budget, the call returns, and what it returns is
    [None] or the body of a 200 answer given to one of its attempts; no
    exception reaches the caller. *)
Theorem download_single_file_total :
  forall (h : Http) (u : Url) (retries : nat),
    download_single_file h u retries = Ret None \/
    exists n r, (n < retries)%nat /\ h u n = Answers r /\ status_code r = 200 /\
                download_single_file h u retries = Ret (Some (content r)).
Proof.
  intros h u retries.
  destruct (download_single_file_returns h u retries) as [[body |] H].
  - right. unfold download_single_file in *.
    destruct (attempts_from_content _ _ _ _ _ _ H) as (n & r & Hn & Hget & H200 & Hc).
    exists n, r. repeat split; try assumption; try lia. now rewrite Hc.
  - now left.
Qed.

(** C4. Retry policy: when the first two requests to a URL raise and the
    third is answered 200 with body [B], the download returns [B], the same
    result as against a server that answers 200 with [B] at once; and when
    every request to a URL is answered 404, it returns [None] and does not
    raise. *)
Theorem download_single_file_retry_policy :
  forall (h_retry h_direct h_404 : Http) (u : Url) (B : bytes) (e1 e2 : string),
    h_retry u 0%nat = Fails e1 ->
    h_retry u 1%nat = Fails e2 ->
    h_retry u 2%nat = Answers (mk_response 200 B) ->
    h_direct u 0%nat = Answers (mk_response 200 B) ->
    (forall n, exists body, h_404 u n = Answers (mk_response 404 body)) ->
    download_single_file h_retry u RETRY_ATTEMPTS = Ret (Some B) /\
    download_single_file h_retry u RETRY_ATTEMPTS
      = download_single_file h_direct u RETRY_ATTEMPTS /\
    download_single_file h_404 u RETRY_ATTEMPTS = Ret None.
Proof.
  intros h_retry h_direct h_404 u B e1 e2 H0 H1 H2 Hd H404.
  assert (Hr : download_single_file h_retry u RETRY_ATTEMPTS = Ret (Some B)).
  { unfold download_single_file, RETRY_ATTEMPTS. simpl.
    unfold attempt_body, requests_get, try_except, bind.
    rewrite H0, H1, H2. reflexivity. }
  assert (Hi : download_single_file h_direct u RETRY_ATTEMPTS = Ret (Some B)).
  { unfold download_single_file, RETRY_ATTEMPTS. simpl.
    unfold attempt_body, requests_get, try_except, bind.
    rewrite Hd. reflexivity. }
  repeat split.
  - exact Hr.
  - now rewrite Hr, Hi.
  - unfold download_single_file, RETRY_ATTEMPTS. simpl.
    unfold attempt_body, requests_get, try_except, bind.
    destruct (H404 0%nat) as [body ->]. reflexivity.
Qed.

Lemma download_single_file_retry_policy_witness :
  let u := mk_url "klines" 2021 1 in
  let B := [x50; x4b] in
  let h_retry : Http :=
    fun _ n => if Nat.ltb n 2 then Fails "timeout" else Answers (mk_response 200 B) in
  download_single_file h_retry u RETRY_ATTEMPTS = Ret (Some B) /\
  download_single_file h_retry u RETRY_ATTEMPTS
    = download_single_file (always (Answers (mk_response 200 B))) u RETRY_ATTEMPTS /\
  download_single_file (always (Answers (mk_response 404 []))) u RETRY_ATTEMPTS = Ret None.
Proof.
  intros u B h_retry.
  apply (download_single_file_retry_policy h_retry
           (always (Answers (mk_response 200 B)))
           (always (Answers (mk_response 404 []))) u B "timeout" "timeout").
  - reflexivity.
  - reflexivity.
  - reflexivity.
  - reflexivity.
  - intros n. exists []. reflexivity.
Defined.

(* ------------------------------------------------------------------ *)
(** ** Sorting and duplicate removal *)

Lemma insert_row_In (r x : Row) (rs : list Row) :
  In x (insert_row r rs) <-> x = r \/ In x rs.
Proof.
  induction rs as [| y rs IH]; simpl.
  - intuition.
  - destruct (timestamp_utc r <=? timestamp_utc y); simpl; [intuition |].
    rewrite IH. intuition.
Qed.

Lemma insert_row_sorted (r : Row) (rs : list Row) :
  StronglySorted key_le rs -> StronglySorted key_le (insert_row r rs).
Proof.
  induction 1 as [| y rs Hs IH Hy]; simpl.
  - constructor; [constructor | constructor].
  - destruct (timestamp_utc r <=? timestamp_utc y) eqn:E.
    + apply Z.leb_le in E. constructor.
      * constructor; assumption.
      * constructor; [exact E |].
        eapply Forall_impl; [| exact Hy]. unfold key_le. intros; lia.
    + apply Z.leb_gt in E. constructor; [exact IH |].
      apply Forall_forall. intros x Hx. apply insert_row_In in Hx.
      destruct Hx as [-> | Hx].
      * unfold key_le; lia.
      * rewrite Forall_forall in Hy. now apply Hy.
Qed.

Lemma sort_rows_sorted (rs : list Row) : StronglySorted key_le (sort_rows rs).
Proof.
  induction rs as [| r rs IH]; simpl.
  - constructor.
  - now apply insert_row_sorted.
Qed.

Lemma insert_row_perm (r : Row) (rs : list Row) :
  Permutation (r :: rs) (insert_row r rs).
Proof.
  induction rs as [| y rs IH]; simpl.
  - apply Permutation_refl.
  - destruct (timestamp_utc r <=? timestamp_utc y).
    + apply Permutation_refl.
    + eapply Permutation_trans; [apply perm_swap |]. now apply perm_skip.
Qed.

(** Sorting neither loses nor invents a row. *)
Lemma sort_rows_perm (rs : list Row) : Permutation rs (sort_rows rs).
Proof.
  induction rs as [| r rs IH]; simpl.
  - constructor.
  - eapply Permutation_trans; [apply perm_skip, IH | apply insert_row_perm].
Qed.

Lemma existsb_eqb_In (k : Z) (seen : list Z) :
  existsb (Z.eqb k) seen = true <-> In k seen.
Proof.
  rewrite existsb_exists. split.
  - intros (x & Hx & E). apply Z.eqb_eq in E. now subst.
  - intros H. exists k. split; [exact H | apply Z.eqb_refl].
Qed.

Lemma drop_duplicates_from_In (seen : list Z) (rs : list Row) (x : Row) :
  In x (drop_duplicates_from seen rs) -> In x rs /\ ~ In (timestamp_utc x) seen.
Proof.
  revert seen; induction rs as [| r rs IH]; intros seen; simpl.
  - intros [].
  - destruct (existsb (Z.eqb (timestamp_utc r)) seen) eqn:E.
    + intros H. destruct (IH _ H). tauto.
    + intros [<- | H].
      * split; [now left |]. intros Hin. apply existsb_eqb_In in Hin. congruence.
      * destruct (IH _ H) as [H1 H2]. split; [now right |].
        intros Hin. apply H2. now right.
Qed.

(** The keys that survive are pairwise different. *)
Lemma drop_duplicates_from_NoDup (seen : list Z) (rs : list Row) :
  NoDup (map timestamp_utc (drop_duplicates_from seen rs)).
Proof.
  revert seen; induction rs as [| r rs IH]; intros seen; simpl.
  - constructor.
  - destruct (existsb (Z.eqb (timestamp_utc r)) seen); [apply IH |].
    simpl. constructor; [| apply IH].
    intros Hin. apply in_map_iff in Hin. destruct Hin as (x & Hk & Hx).
    apply drop_duplicates_from_In in Hx. destruct Hx as [_ Hx].
    apply Hx. left. now symmetry.
Qed.

Lemma drop_duplicates_from_sorted (seen : list Z) (rs : list Row) :
  StronglySorted key_le rs -> StronglySorted key_le (drop_duplicates_from seen rs).
Proof.
  intros Hs; revert seen; induction Hs as [| r rs Hs IH Hr]; intros seen; simpl.
  - constructor.
  - destruct (existsb (Z.eqb (timestamp_utc r)) seen); [apply IH |].
    constructor; [apply IH |].
    apply Forall_forall. intros x Hx. apply drop_duplicates_from_In in Hx.
    rewrite Forall_forall in Hr. apply Hr. tauto.
Qed.

(** Ascending keys without repetition ascend strictly. *)
Lemma sorted_NoDup_strict (rs : list Row) :
  StronglySorted key_le rs ->
  NoDup (map timestamp_utc rs) ->
  StronglySorted Z.lt (map timestamp_utc rs).
Proof.
  induction 1 as [| r rs Hs IH Hr]; simpl; intros Hnd.
  - constructor.
  - inversion Hnd as [| k ks Hnotin Hnd']; subst.
    constructor; [now apply IH |].
    apply Forall_forall. intros k Hk.
    apply in_map_iff in Hk. destruct Hk as (x & <- & Hx).
    rewrite Forall_forall in Hr. specialize (Hr x Hx). unfold key_le in Hr.
    assert (timestamp_utc r <> timestamp_utc x).
    { intros E. apply Hnotin. rewrite E. now apply in_map. }
    lia.
Qed.

(** C1. After the sort by [timestamp_utc] and the removal of duplicate keys
    (first occurrence kept) of step 7, every row's [timestamp_utc] is
    strictly greater than that of the row before it; the keys ascend
    strictly over the whole table and no key occurs twice. *)
Theorem step7_timestamps_strictly_increasing :
  forall full : DataFrame,
    Sorted Z.lt (timestamps (step7 full)) /\
    StronglySorted Z.lt (timestamps (step7 full)) /\
    NoDup (timestamps (step7 full)).
Proof.
  intros full.
  assert (Hnd : NoDup (timestamps (step7 full))).
  { apply drop_duplicates_from_NoDup. }
  assert (Hs : StronglySorted Z.lt (timestamps (step7 full))).
  { unfold timestamps, step7, drop_duplicates, sort_values; simpl.
    apply sorted_NoDup_strict.
    - apply drop_duplicates_from_sorted, sort_rows_sorted.
    - apply drop_duplicates_from_NoDup. }
  repeat split; try assumption.
  now apply StronglySorted_Sorted.
Qed.

(** The same holds whatever sorting algorithm pandas picks, stable or not:
    only the order of the keys matters to the duplicate removal. *)
Lemma dedupe_of_any_sorted_strict (rs : list Row) :
  StronglySorted key_le rs ->
  StronglySorted Z.lt (map timestamp_utc (drop_duplicates_from [] rs)).
Proof.
  intros Hs. apply sorted_NoDup_strict.
  - now apply drop_duplicates_from_sorted.
  - apply drop_duplicates_from_NoDup.
Qed.

(* ------------------------------------------------------------------ *)
(** ** The validator *)

Lemma duplicated_from_NoDup (seen ks : list Z) :
  NoDup ks ->
  (forall k, In k ks -> ~ In k seen) ->
  count_true (duplicated_from seen ks) = O.
Proof.
  intros Hnd; revert seen; induction Hnd as [| k ks Hk Hnd IH]; intros seen Hseen; simpl.
  - reflexivity.
  - destruct (existsb (Z.eqb k) seen) eqn:E.
    + apply existsb_eqb_In in E. exfalso. apply (Hseen k); [now left | exact E].
    + unfold count_true in *. simpl. apply IH.
      intros k' Hk' [<- | Hin]; [contradiction |].
      apply (Hseen k'); [now right | exact Hin].
Qed.

Lemma validate_data_unique (df : DataFrame) :
  NoDup (timestamps df) -> fst (validate_data df) = df.
Proof.
  intros Hnd. unfold validate_data; simpl.
  unfold duplicated. rewrite duplicated_from_NoDup; [reflexivity | exact Hnd |].
  intros k _ [].
Qed.

Lemma validate_data_rows (df : DataFrame) :
  fst (validate_data df) = df \/ fst (validate_data df) = drop_duplicates df.
Proof.
  unfold validate_data; simpl.
  destruct (Nat.ltb 0 (count_true (duplicated (timestamps df)))); auto.
Qed.

Lemma validate_data_columns (df : DataFrame) :
  columns (fst (validate_data df)) = columns df.
Proof.
  destruct (validate_data_rows df) as [-> | ->]; reflexivity.
Qed.

Lemma validate_data_In (df : DataFrame) (r : Row) :
  In r (rows (fst (validate_data df))) -> In r (rows df).
Proof.
  destruct (validate_data_rows df) as [-> | ->]; [trivial |].
  simpl. intros H. now apply drop_duplicates_from_In in H.
Qed.

(** Keys that repeat are counted, so the table handed on has none. *)
Lemma duplicated_from_zero (seen ks : list Z) :
  count_true (duplicated_from seen ks) = O ->
  NoDup ks /\ forall k, In k ks -> ~ In k seen.
Proof.
  revert seen; induction ks as [| k ks IH]; intros seen; simpl.
  - intros _. split; [constructor | intros k []].
  - unfold count_true; simpl.
    destruct (existsb (Z.eqb k) seen) eqn:E; simpl; [discriminate |].
    intros H. destruct (IH _ H) as [Hnd Hseen]. split.
    + constructor; [| exact Hnd]. intros Hin. apply (Hseen k Hin). now left.
    + intros k' [<- | Hin].
      * intros Hk. apply existsb_eqb_In in Hk. congruence.
      * intros Hk. apply (Hseen k' Hin). now right.
Qed.

Lemma validate_data_NoDup (df : DataFrame) :
  NoDup (timestamps (fst (validate_data df))).
Proof.
  unfold validate_data; simpl.
  destruct (count_true (duplicated (timestamps df))) eqn:E; simpl.
  - now apply duplicated_from_zero in E.
  - apply drop_duplicates_from_NoDup.
Qed.

(** The validator is idempotent on every table, clean or not. *)
Lemma validate_data_idempotent (df : DataFrame) :
  fst (validate_data (fst (validate_data df))) = fst (validate_data df).
Proof. apply validate_data_unique, validate_data_NoDup. Qed.

(** C8. On a table whose [timestamp_utc] keys are unique and ascending,
    [validate_data] returns the very same table, rows and order untouched,
    and so does a second application.  (Uniqueness alone is what the proof
    uses; the order plays no part.) *)
Theorem validate_data_clean_input :
  forall df : DataFrame,
    NoDup (timestamps df) ->
    Sorted Z.le (timestamps df) ->
    fst (validate_data df) = df /\
    fst (validate_data (fst (validate_data df))) = df /\
    validate_data (fst (validate_data df)) = validate_data df.
Proof.
  intros df Hnd _.
  pose proof (validate_data_unique df Hnd) as H.
  rewrite H. auto.
Qed.

Lemma validate_data_clean_input_witness :
  let df := mk_df ["fundingRate"%string]
                  [mk_row 0 [Val (1 # 10000)]; mk_row 28800000 [Null];
                   mk_row 57600000 [Val (2 # 10000)]] in
  fst (validate_data df) = df /\
  fst (validate_data (fst (validate_data df))) = df /\
  validate_data (fst (validate_data df)) = validate_data df.
Proof.
  intros df. apply validate_data_clean_input.
  - unfold df, timestamps; simpl.
    repeat constructor; simpl; intuition discriminate.
  - unfold df, timestamps; simpl.
    repeat constructor; discriminate.
Defined.

(* ------------------------------------------------------------------ *)
(** ** The primary series *)

(** The four volume cells and the two derived ones of a normalised line. *)
Lemma kline_row_cells (raw : list (RawLine KlineLine)) (k : KlineLine) :
  let df := normalize_klines raw in
  let r := kline_row k in
  cell_at df "volume" r = Some (Val (volume k)) /\
  cell_at df "taker_buy_base_vol" r = Some (Val (taker_buy_base_vol k)) /\
  cell_at df "taker_sell_base_vol" r = Some (Val (volume k - taker_buy_base_vol k)%Q) /\
  cell_at df "quote_volume" r = Some (Val (quote_volume k)) /\
  cell_at df "taker_buy_quote_vol" r = Some (Val (taker_buy_quote_vol k)) /\
  cell_at df "taker_sell_quote_vol" r
    = Some (Val (quote_volume k - taker_buy_quote_vol k)%Q).
Proof. repeat split. Qed.

(** C7. In every row of the normalised primary series, before and after
    [validate_data], the taker buy and taker sell base volumes add up to
    [volume] and the taker buy and taker sell quote volumes add up to
    [quote_volume], exactly, the arithmetic being that of the rationals. *)
Theorem taker_volumes_add_up :
  forall (raw : list (RawLine KlineLine)) (r : Row),
    In r (rows (normalize_klines raw)) \/
    In r (rows (fst (validate_data (normalize_klines raw)))) ->
    let df := normalize_klines raw in
    exists v b s qv qb qs : Q,
      cell_at df "volume" r = Some (Val v) /\
      cell_at df "taker_buy_base_vol" r = Some (Val b) /\
      cell_at df "taker_sell_base_vol" r = Some (Val s) /\
      cell_at df "quote_volume" r = Some (Val qv) /\
      cell_at df "taker_buy_quote_vol" r = Some (Val qb) /\
      cell_at df "taker_sell_quote_vol" r = Some (Val qs) /\
      (b + s == v)%Q /\ (qb + qs == qv)%Q.
Proof.
  intros raw r Hin df.
  assert (H : In r (rows (normalize_klines raw))).
  { destruct Hin as [H | H]; [exact H | now apply validate_data_In]. }
  simpl in H. apply in_map_iff in H. destruct H as (k & <- & _).
  destruct (kline_row_cells raw k) as (H1 & H2 & H3 & H4 & H5 & H6).
  exists (volume k), (taker_buy_base_vol k), (volume k - taker_buy_base_vol k)%Q,
         (quote_volume k), (taker_buy_quote_vol k),
         (quote_volume k - taker_buy_quote_vol k)%Q.
  repeat split; try assumption; ring.
Qed.

Lemma taker_volumes_add_up_witness :
  let raw := [HeaderLine; DataLine sep1; DataLine sep2] in
  let df := normalize_klines raw in
  exists v b s qv qb qs : Q,
    cell_at df "volume" (kline_row sep2) = Some (Val v) /\
    cell_at df "taker_buy_base_vol" (kline_row sep2) = Some (Val b) /\
    cell_at df "taker_sell_base_vol" (kline_row sep2) = Some (Val s) /\
    cell_at df "quote_volume" (kline_row sep2) = Some (Val qv) /\
    cell_at df "taker_buy_quote_vol" (kline_row sep2) = Some (Val qb) /\
    cell_at df "taker_sell_quote_vol" (kline_row sep2) = Some (Val qs) /\
    (b + s == v)%Q /\ (qb + qs == qv)%Q.
Proof.
  intros raw df.
  apply (taker_volumes_add_up raw (kline_row sep2)).
  left. simpl. right. left. reflexivity.
Defined.

(* ------------------------------------------------------------------ *)
(** ** The merger *)

Lemma filter_key_unique (k : Z) (rs : list Row) :
  NoDup (map timestamp_utc rs) ->
  (List.length (filter (fun r => (timestamp_utc r =? k)%Z) rs) <= 1)%nat.
Proof.
  induction rs as [| r rs IH]; simpl; intros Hnd.
  - lia.
  - inversion Hnd as [| ? ? Hnotin Hnd']; subst.
    destruct (timestamp_utc r =? k) eqn:E; [| now apply IH].
    apply Z.eqb_eq in E. simpl.
    assert (Hnone : filter (fun r0 => timestamp_utc r0 =? k) rs = []).
    { destruct (filter (fun r0 => timestamp_utc r0 =? k) rs) as [| x xs] eqn:F;
        [reflexivity |].
      exfalso. assert (Hx : In x (filter (fun r0 => timestamp_utc r0 =? k) rs))
        by (rewrite F; now left).
      apply filter_In in Hx. destruct Hx as [Hx Hk]. apply Z.eqb_eq in Hk.
      apply Hnotin. rewrite E, <- Hk. now apply in_map. }
    rewrite Hnone. simpl. lia.
Qed.

Lemma join_row_unique (right : DataFrame) (l : Row) :
  NoDup (timestamps right) ->
  join_row right l = [mk_row (timestamp_utc l) (cells l ++ contribution right l)].
Proof.
  intros Hnd. unfold join_row, contribution.
  pose proof (filter_key_unique (timestamp_utc l) (rows right) Hnd) as Hlen.
  destruct (filter (fun r => timestamp_utc r =? timestamp_utc l) (rows right))
    as [| r [| r' rest]]; simpl in *; try reflexivity. lia.
Qed.

Lemma merge_left_rows_unique (left right : DataFrame) :
  NoDup (timestamps right) ->
  rows (merge_left left right)
  = map (fun l => mk_row (timestamp_utc l) (cells l ++ contribution right l)) (rows left).
Proof.
  intros Hnd. unfold merge_left; simpl.
  induction (rows left) as [| l ls IH]; simpl.
  - reflexivity.
  - rewrite join_row_unique by exact Hnd. simpl. now rewrite IH.
Qed.

Lemma col_index_bound (c : string) (cols : list string) (i : nat) :
  col_index c cols = Some i -> (i < List.length cols)%nat.
Proof.
  revert i; induction cols as [| x cols IH]; simpl; intros i.
  - discriminate.
  - destruct (String.eqb c x).
    + intros H; injection H as <-. lia.
    + destruct (col_index c cols) as [j |]; [| discriminate].
      intros H; injection H as <-. specialize (IH j eq_refl). lia.
Qed.

Lemma col_index_In (c : string) (cols : list string) :
  In c cols <-> exists i, col_index c cols = Some i.
Proof.
  induction cols as [| x cols IH]; simpl.
  - split; [intros [] | intros [i H]; discriminate].
  - destruct (String.eqb c x) eqn:E.
    + apply String.eqb_eq in E. split; [eauto | auto].
    + apply String.eqb_neq in E. rewrite IH. split.
      * intros [H | [i H]]; [congruence |]. rewrite H. eauto.
      * intros [i H]. right. destruct (col_index c cols); [eauto | discriminate].
Qed.

Lemma col_index_app_l (c : string) (cols more : list string) (i : nat) :
  col_index c cols = Some i -> col_index c (cols ++ more) = Some i.
Proof.
  revert i; induction cols as [| x cols IH]; simpl; intros i.
  - discriminate.
  - destruct (String.eqb c x); [trivial |].
    destruct (col_index c cols) as [j |]; [| discriminate].
    now rewrite (IH j eq_refl).
Qed.

Lemma col_index_app_r (c : string) (cols more : list string) (i : nat) :
  ~ In c cols -> col_index c (cols ++ more) = Some i ->
  (List.length cols <= i)%nat.
Proof.
  revert i; induction cols as [| x cols IH]; simpl; intros i Hnot.
  - intros _. lia.
  - destruct (String.eqb c x) eqn:E.
    + apply String.eqb_eq in E. exfalso. apply Hnot. now left.
    + destruct (col_index c (cols ++ more)) as [j |] eqn:F; [| discriminate].
      intros H; injection H as <-.
      assert (List.length cols <= j)%nat by (apply IH; [tauto | reflexivity]). lia.
Qed.

Lemma well_formed_row (df : DataFrame) (r : Row) :
  well_formed df = true -> In r (rows df) ->
  List.length (cells r) = List.length (columns df).
Proof.
  unfold well_formed. rewrite forallb_forall. intros H Hr.
  now apply Nat.eqb_eq, H.
Qed.

(** A left join on unique right keys keeps the frame. *)
Lemma merge_left_frame (left right : DataFrame) :
  NoDup (timestamps right) ->
  well_formed left = true ->
  frame_preserved left right (merge_left left right).
Proof.
  intros Hnd Hwf. unfold frame_preserved, timestamps, column.
  rewrite merge_left_rows_unique by exact Hnd.
  rewrite length_map, map_map. simpl.
  repeat split; try reflexivity.
  intros c Hc. rewrite map_map.
  apply map_ext_in. intros l Hl.
  apply col_index_In in Hc. destruct Hc as [i Hi].
  unfold cell_at; simpl. rewrite (col_index_app_l _ _ _ _ Hi), Hi.
  apply nth_error_app1.
  rewrite (well_formed_row left l Hwf Hl). now apply col_index_bound in Hi.
Qed.

Lemma ffill_rows_length (i : nat) (prev : Cell) (rs : list Row) :
  List.length (ffill_rows i prev rs) = List.length rs.
Proof.
  revert prev; induction rs as [| r rs IH]; intros prev; simpl.
  - reflexivity.
  - destruct (nth i (cells r) Null); simpl; now rewrite IH.
Qed.

Lemma ffill_rows_keys (i : nat) (prev : Cell) (rs : list Row) :
  map timestamp_utc (ffill_rows i prev rs) = map timestamp_utc rs.
Proof.
  revert prev; induction rs as [| r rs IH]; intros prev; simpl.
  - reflexivity.
  - destruct (nth i (cells r) Null); simpl; now rewrite IH.
Qed.

Lemma nth_error_set_nth_other {A : Type} (i j : nat) (x : A) (l : list A) :
  i <> j -> nth_error (set_nth i x l) j = nth_error l j.
Proof.
  revert i j; induction l as [| y l IH]; intros i j Hij; simpl.
  - reflexivity.
  - destruct i as [| i]; destruct j as [| j]; simpl; try reflexivity.
    + congruence.
    + apply IH. congruence.
Qed.

(** Forward fill touches the filled position only. *)
Lemma ffill_rows_other (i j : nat) (prev : Cell) (rs : list Row) :
  i <> j ->
  map (fun r => nth_error (cells r) j) (ffill_rows i prev rs)
  = map (fun r => nth_error (cells r) j) rs.
Proof.
  intros Hij; revert prev; induction rs as [| r rs IH]; intros prev; simpl.
  - reflexivity.
  - destruct (nth i (cells r) Null); simpl; rewrite IH; [| reflexivity].
    now rewrite nth_error_set_nth_other.
Qed.

Lemma column_as_nth (cols : list string) (rs : list Row) (c : string) (j : nat) :
  col_index c cols = Some j ->
  column (mk_df cols rs) c = map (fun r => nth_error (cells r) j) rs.
Proof.
  intros H. unfold column, cell_at; simpl. now rewrite H.
Qed.

(** The funding step, join and forward fill together, keeps the frame as
    long as the left table has no [fundingRate] column of its own. *)
Lemma merge_funding_frame (left right : DataFrame) :
  NoDup (timestamps right) ->
  well_formed left = true ->
  ~ In "fundingRate"%string (columns left) ->
  frame_preserved left right (merge_funding (Some right) left).
Proof.
  intros Hnd Hwf Hfresh.
  destruct (merge_left_frame left right Hnd Hwf) as (Hlen & Hkeys & Hcols & Hvals).
  unfold merge_funding, ffill.
  destruct (col_index "fundingRate" (columns (merge_left left right))) as [i |] eqn:Ei;
    [| repeat split; assumption].
  assert (Hi : (List.length (columns left) <= i)%nat).
  { apply (col_index_app_r "fundingRate" _ (columns right)); assumption. }
  unfold frame_preserved, timestamps; simpl.
  rewrite ffill_rows_length, ffill_rows_keys.
  repeat split; try assumption.
  intros c Hc. rewrite <- (Hvals c Hc).
  destruct (proj1 (col_index_In c (columns left)) Hc) as [j Hj].
  pose proof (col_index_bound _ _ _ Hj) as Hjlt.
  pose proof (col_index_app_l c _ (columns right) _ Hj) as Hj'.
  rewrite (column_as_nth _ _ c j Hj').
  rewrite ffill_rows_other by lia.
  unfold column, cell_at. simpl. now rewrite Hj'.
Qed.

(** C10. Every merge step keeps the frame of the accumulated table: when
    the secondary series has unique [timestamp_utc] keys, the left join
    leaves the number of rows, their keys and the values of every column
    already present unchanged, and only appends the secondary's columns.
    This holds for every plain join (mark, index, and open interest onto a
    table that may already carry [fundingRate]) and, when the table has no
    [fundingRate] column yet, for the funding join followed by its forward
    fill. *)
Theorem merge_steps_preserve_frame :
  forall left right : DataFrame,
    NoDup (timestamps right) ->
    well_formed left = true ->
    frame_preserved left right (merge_if (Some right) left) /\
    (~ In "fundingRate"%string (columns left) ->
     frame_preserved left right (merge_funding (Some right) left)).
Proof.
  intros left right Hnd Hwf. split.
  - now apply merge_left_frame.
  - intros Hfresh. now apply merge_funding_frame.
Qed.

Lemma merge_steps_preserve_frame_witness :
  let left := normalize_klines [DataLine sep1; DataLine sep2] in
  let funding := normalize_funding [sep_funding] in
  let funded := merge_funding (Some funding) left in
  let df_oi := normalize_oi [mk_snapshot 1567296060000 (250000 # 1)] in
  frame_preserved left funding (merge_funding (Some funding) left) /\
  frame_preserved funded df_oi (merge_if (Some df_oi) funded).
Proof.
  intros left funding funded df_oi. split.
  - apply (proj2 (merge_steps_preserve_frame left funding
                    ltac:(unfold funding, timestamps; simpl; repeat constructor; simpl; tauto)
                    eq_refl)).
    unfold left; simpl. intuition discriminate.
  - apply (proj1 (merge_steps_preserve_frame funded df_oi
                    ltac:(unfold df_oi, timestamps; simpl; repeat constructor; simpl; tauto)
                    eq_refl)).
Defined.

(** *** One cell per column, all the way through step 6 *)

Lemma well_formed_iff (df : DataFrame) :
  well_formed df = true <->
  forall r, In r (rows df) -> List.length (cells r) = List.length (columns df).
Proof.
  unfold well_formed. rewrite forallb_forall. split; intros H r Hr.
  - now apply Nat.eqb_eq, H.
  - now apply Nat.eqb_eq, H.
Qed.

Lemma normalize_klines_well_formed (raw : list (RawLine KlineLine)) :
  well_formed (normalize_klines raw) = true.
Proof.
  apply well_formed_iff. simpl. intros r Hr.
  apply in_map_iff in Hr. destruct Hr as (k & <- & _). reflexivity.
Qed.

Lemma normalize_price_well_formed (cols : list string) (raw : list (RawLine PriceLine)) :
  List.length cols = 4%nat -> well_formed (normalize_price cols raw) = true.
Proof.
  intros Hc. apply well_formed_iff. simpl. intros r Hr.
  apply in_map_iff in Hr. destruct Hr as (k & <- & _). now rewrite Hc.
Qed.

Lemma normalize_funding_well_formed (raw : list FundingLine) :
  well_formed (normalize_funding raw) = true.
Proof.
  apply well_formed_iff. simpl. intros r Hr.
  apply in_map_iff in Hr. destruct Hr as (k & <- & _). reflexivity.
Qed.

Lemma normalize_oi_well_formed (data : list Snapshot) :
  well_formed (normalize_oi data) = true.
Proof.
  apply well_formed_iff. simpl. intros r Hr.
  apply in_map_iff in Hr. destruct Hr as (k & <- & _). reflexivity.
Qed.

Lemma validate_data_well_formed (df : DataFrame) :
  well_formed df = true -> well_formed (fst (validate_data df)) = true.
Proof.
  rewrite !well_formed_iff. intros H r Hr.
  rewrite validate_data_columns. now apply H, validate_data_In.
Qed.

Lemma merge_left_well_formed (left right : DataFrame) :
  well_formed left = true -> well_formed right = true ->
  well_formed (merge_left left right) = true.
Proof.
  rewrite !well_formed_iff. intros Hl Hr x Hx. simpl in *.
  apply in_flat_map in Hx. destruct Hx as (l & Hin & Hx).
  unfold join_row in Hx.
  destruct (filter (fun r => timestamp_utc r =? timestamp_utc l) (rows right))
    as [| m ms] eqn:F.
  - destruct Hx as [<- | []]. simpl.
    unfold nulls. now rewrite !length_app, repeat_length, (Hl l Hin).
  - apply in_map_iff in Hx. destruct Hx as (r & <- & Hr').
    assert (Hrr : In r (rows right)).
    { rewrite <- F in Hr'. now apply filter_In in Hr'. }
    simpl. now rewrite !length_app, (Hl l Hin), (Hr r Hrr).
Qed.

Lemma set_nth_length {A : Type} (i : nat) (x : A) (l : list A) :
  List.length (set_nth i x l) = List.length l.
Proof.
  revert i; induction l as [| y l IH]; intros i; simpl.
  - reflexivity.
  - destruct i; simpl; [reflexivity | now rewrite IH].
Qed.

Lemma ffill_rows_cells_length (i n : nat) (prev : Cell) (rs : list Row) :
  (forall r, In r rs -> List.length (cells r) = n) ->
  forall r, In r (ffill_rows i prev rs) -> List.length (cells r) = n.
Proof.
  revert prev; induction rs as [| x rs IH]; intros prev H r; simpl.
  - intros [].
  - destruct (nth i (cells x) Null); simpl; intros [<- | Hr].
    + simpl. rewrite set_nth_length. apply H. now left.
    + apply (IH prev); [intros y Hy; apply H; now right | exact Hr].
    + apply H. now left.
    + apply (IH (Val q)); [intros y Hy; apply H; now right | exact Hr].
Qed.

Lemma ffill_well_formed (c : string) (df : DataFrame) :
  well_formed df = true -> well_formed (ffill c df) = true.
Proof.
  rewrite !well_formed_iff. intros H. unfold ffill.
  destruct (col_index c (columns df)) as [i |]; [| exact H].
  simpl. now apply ffill_rows_cells_length.
Qed.

(** Every table of step 6 has one cell per column. *)
Lemma step6_well_formed (df : DataFrame) (mark index funding df_oi : option DataFrame) :
  well_formed df = true ->
  (forall s, In (Some s) [mark; index; funding; df_oi] -> well_formed s = true) ->
  well_formed (step6 df mark index funding df_oi) = true.
Proof.
  intros Hdf Hs. unfold step6.
  assert (Hm : well_formed (merge_if mark df) = true).
  { destruct mark as [s |]; simpl; [| exact Hdf].
    apply merge_left_well_formed; [exact Hdf | apply Hs; simpl; auto]. }
  assert (Hi : well_formed (merge_if index (merge_if mark df)) = true).
  { destruct index as [s |]; simpl; [| exact Hm].
    apply merge_left_well_formed; [exact Hm | apply Hs; simpl; auto]. }
  assert (Hf : well_formed (merge_funding funding (merge_if index (merge_if mark df))) = true).
  { destruct funding as [s |]; simpl; [| exact Hi].
    apply ffill_well_formed, merge_left_well_formed; [exact Hi | apply Hs; simpl; auto]. }
  destruct df_oi as [s |]; simpl; [| exact Hf].
  apply merge_left_well_formed; [exact Hf | apply Hs; simpl; auto 6].
Qed.

(* ------------------------------------------------------------------ *)
(** ** The open-interest polling loop *)

Lemma on_page_short (data : list Snapshot) (st : PollState) :
  (List.length data < PAGE_SIZE)%nat ->
  exists st', on_page data st = Break st' /\
              oi_data st' = oi_data st ++ data /\
              params st' = params st /\ sent st' = sent st.
Proof.
  intros Hlen. unfold on_page.
  destruct data as [| s data'].
  - exists st. rewrite app_nil_r. auto.
  - apply Nat.ltb_lt in Hlen. rewrite Hlen. eexists. repeat split.
Qed.

Lemma on_page_full (data : list Snapshot) (st : PollState) :
  (PAGE_SIZE <= List.length data)%nat ->
  on_page data st
  = Next (mk_poll (set_startTime (params st) (timestamp (last data no_snapshot) + 60000))
                  (oi_data st ++ data) (sent st) (stray st)).
Proof.
  intros Hlen. unfold on_page.
  destruct data as [| s data'].
  - unfold PAGE_SIZE in Hlen. simpl in Hlen. lia.
  - apply Nat.ltb_ge in Hlen. rewrite Hlen. reflexivity.
Qed.

Lemma poll_iteration_page (get_ : nat -> OIParams -> OIReply) (st : PollState)
      (data : list Snapshot) :
  get_ (List.length (sent st)) (params st) = OIPage data ->
  poll_iteration get_ st
  = on_page data (mk_poll (params st) (oi_data st) (sent st ++ [params st]) (stray st)).
Proof. intros H. unfold poll_iteration. now rewrite H. Qed.

Lemma poll_loop_full (fuel : nat) (get_ : nat -> OIParams -> OIReply)
      (st : PollState) (data : list Snapshot) :
  get_ (List.length (sent st)) (params st) = OIPage data ->
  (PAGE_SIZE <= List.length data)%nat ->
  poll_loop (S fuel) get_ st
  = poll_loop fuel get_
      (mk_poll (set_startTime (params st) (timestamp (last data no_snapshot) + 60000))
               (oi_data st ++ data) (sent st ++ [params st]) (stray st)).
Proof.
  intros Hg Hlen. cbn [poll_loop].
  rewrite (poll_iteration_page _ _ _ Hg), on_page_full by exact Hlen.
  reflexivity.
Qed.

Lemma poll_loop_short (fuel : nat) (get_ : nat -> OIParams -> OIReply)
      (st : PollState) (data : list Snapshot) :
  get_ (List.length (sent st)) (params st) = OIPage data ->
  (List.length data < PAGE_SIZE)%nat ->
  poll_loop (S fuel) get_ st
  = Some (mk_poll (params st) (oi_data st ++ data) (sent st ++ [params st]) (stray st)).
Proof.
  intros Hg Hlen. cbn [poll_loop].
  rewrite (poll_iteration_page _ _ _ Hg). unfold on_page.
  destruct data as [| s data'].
  - now rewrite app_nil_r.
  - apply Nat.ltb_lt in Hlen. now rewrite Hlen.
Qed.

(** A request that raises ends the loop with what was collected. *)
Lemma poll_loop_fails (fuel : nat) (get_ : nat -> OIParams -> OIReply)
      (st : PollState) (e : string) :
  get_ (List.length (sent st)) (params st) = OIFails e ->
  poll_loop (S fuel) get_ st
  = Some (mk_poll (params st) (oi_data st) (sent st ++ [params st]) (stray st)).
Proof. intros Hg. cbn [poll_loop]. unfold poll_iteration. now rewrite Hg. Qed.

(** C6. An iteration that receives a page ends the loop exactly when the
    page is empty or holds fewer than 500 snapshots; otherwise it goes on
    with [startTime] set to the last snapshot's timestamp plus 60000 ms.
    Against pages of 500, 500 and 200 snapshots the loop collects the 1200
    of them and stops after the third request. *)
Theorem poll_loop_pagination :
  forall (get_ : nat -> OIParams -> OIReply) (p1 p2 p3 : list Snapshot),
    List.length p1 = 500%nat ->
    List.length p2 = 500%nat ->
    List.length p3 = 200%nat ->
    (forall ps, get_ 0%nat ps = OIPage p1) ->
    (forall ps, get_ 1%nat ps = OIPage p2) ->
    (forall ps, get_ 2%nat ps = OIPage p3) ->
    (forall (g : nat -> OIParams -> OIReply) st data,
        g (List.length (sent st)) (params st) = OIPage data ->
        ((exists st', poll_iteration g st = Break st') <->
         data = [] \/ (List.length data < 500)%nat) /\
        ((500 <= List.length data)%nat ->
         exists st', poll_iteration g st = Next st' /\
           startTime (params st')
             = Some (timestamp (last data no_snapshot) + 60000) /\
           oi_data st' = oi_data st ++ data)) /\
    (forall fuel, (3 <= fuel)%nat ->
       exists st, poll_loop fuel get_ initial_poll = Some st /\
         oi_data st = p1 ++ p2 ++ p3 /\
         List.length (oi_data st) = 1200%nat /\
         List.length (sent st) = 3%nat /\
         map startTime (sent st)
           = [None;
              Some (timestamp (last p1 no_snapshot) + 60000);
              Some (timestamp (last p2 no_snapshot) + 60000)]).
Proof.
  intros get_ p1 p2 p3 L1 L2 L3 G0 G1 G2. split.
  - intros g st data Hg. rewrite (poll_iteration_page g st data Hg).
    destruct (Nat.lt_ge_cases (List.length data) PAGE_SIZE) as [Hlt | Hge].
    + destruct (on_page_short data (mk_poll (params st) (oi_data st) (sent st ++ [params st]) (stray st)) Hlt)
        as (st' & -> & _).
      split.
      * split; [intros _; right; exact Hlt | intros _; eauto].
      * intros Hge. unfold PAGE_SIZE in Hlt. lia.
    + rewrite (on_page_full _ _ Hge). split.
      * split.
        -- intros [st' H]. discriminate.
        -- intros [-> | Hlt]; [simpl in Hge | ]; unfold PAGE_SIZE in Hge; lia.
      * intros _. eexists. split; [reflexivity |]. simpl. auto.
  - intros fuel Hfuel.
    destruct fuel as [| [| [| fuel]]]; try lia.
    rewrite (poll_loop_full _ get_ initial_poll p1)
      by (try apply G0; unfold PAGE_SIZE; lia).
    match goal with
    | |- context [poll_loop _ _ ?st] =>
        rewrite (poll_loop_full _ get_ st p2)
          by (try apply G1; unfold PAGE_SIZE; lia)
    end.
    match goal with
    | |- context [poll_loop _ _ ?st] =>
        rewrite (poll_loop_short _ get_ st p3)
          by (try apply G2; unfold PAGE_SIZE; lia)
    end.
    eexists. split; [reflexivity |]. cbn [oi_data sent params initial_poll].
    repeat split.
    + now rewrite <- app_assoc.
    + rewrite !length_app, L1, L2, L3. reflexivity.
Qed.

Lemma poll_loop_pagination_witness :
  let p1 := page_of 1700000000000 500 in
  let p2 := page_of 1700030000000 500 in
  let p3 := page_of 1700060000000 200 in
  exists st, poll_loop 3 sample_oi_get initial_poll = Some st /\
    oi_data st = p1 ++ p2 ++ p3 /\
    List.length (oi_data st) = 1200%nat /\
    List.length (sent st) = 3%nat /\
    map startTime (sent st)
      = [None;
         Some (timestamp (last p1 no_snapshot) + 60000);
         Some (timestamp (last p2 no_snapshot) + 60000)].
Proof.
  intros p1 p2 p3.
  apply (proj2 (poll_loop_pagination sample_oi_get p1 p2 p3
                  eq_refl eq_refl eq_refl
                  (fun _ => eq_refl) (fun _ => eq_refl) (fun _ => eq_refl))).
  apply le_n.
Defined.

(* ------------------------------------------------------------------ *)
(** ** The run as a whole *)




(** The fetch reports no data exactly when not one frame was decoded. *)
Lemma fetch_none_iff {L : Type} (w : World) (read_csv : bytes -> Exc (list L))
      (category : string) :
  fetch_binance_zip_parallel w read_csv category = Ret None <->
  gather w read_csv (as_completed w (archive_urls category START (today w))) [] = Ret [].
Proof.
  unfold fetch_binance_zip_parallel.
  destruct (gather w read_csv _ []) as [[| d dfs] | e]; simpl;
    split; intros H; try reflexivity; discriminate.
Qed.

(** Without klines the run is aborted by the script's own [raise]. *)
Lemma pipeline_without_klines (fuel : nat) (w : World) :
  fetch_binance_zip_parallel w (csv_klines w) "klines" = Ret None ->
  pipeline fuel w = Aborted "Failed to fetch klines data!".
Proof. intros H. unfold pipeline. now rewrite H. Qed.

(** A completed run fetched klines, got an answer for each secondary
    series, saw the polling end with items it could put in a frame, and
    wrote the table of steps 6 and 7. *)
Lemma pipeline_done (fuel : nat) (w : World) (out : Output) :
  pipeline fuel w = Done out ->
  exists raw m i f st df_oi,
    fetch_binance_zip_parallel w (csv_klines w) "klines" = Ret (Some raw) /\
    fetch_binance_zip_parallel w (csv_price w) "markPriceKlines" = Ret m /\
    fetch_binance_zip_parallel w (csv_price w) "indexPriceKlines" = Ret i /\
    fetch_funding w = Ret f /\
    poll_open_interest fuel w = Some st /\
    open_interest_frame st = Ret df_oi /\
    table out
    = step7 (step6 (fst (validate_data (normalize_klines raw)))
                   (validated (option_map (normalize_price mark_columns) m))
                   (validated (option_map (normalize_price index_columns) i))
                   (option_map normalize_funding f)
                   df_oi).
Proof.
  unfold pipeline. intros H.
  destruct (fetch_binance_zip_parallel w (csv_klines w) "klines") as [[raw |] | e] eqn:Hk;
    cbn [lift] in H; try discriminate.
  destruct (open_times_converted open_time (Some raw)) as [u1 | e];
    cbn [lift] in H; try discriminate.
  destruct (fetch_binance_zip_parallel w (csv_price w) "markPriceKlines") as [m | e] eqn:Hm;
    cbn [lift] in H; try discriminate.
  destruct (open_times_converted p_open_time m) as [u2 | e];
    cbn [lift] in H; try discriminate.
  destruct (fetch_binance_zip_parallel w (csv_price w) "indexPriceKlines") as [i | e] eqn:Hi;
    cbn [lift] in H; try discriminate.
  destruct (open_times_converted p_open_time i) as [u3 | e];
    cbn [lift] in H; try discriminate.
  destruct (fetch_funding w) as [f | e] eqn:Hf; cbn [lift] in H; try discriminate.
  destruct (poll_open_interest fuel w) as [st |] eqn:Hp; try discriminate.
  destruct (open_interest_frame st) as [df_oi | e] eqn:Ho; cbn [lift] in H; try discriminate.
  destruct (export w _) as [u4 | e]; cbn [lift] in H; try discriminate.
  injection H as <-.
  exists raw, m, i, f, st, df_oi. repeat split; try reflexivity; assumption.
Qed.

(** C5 at a run the code can meet.  The kline archives are fetched and
    normalised as in the sample run, but the open-interest endpoint answers
    with an error object.  The loop takes the object for a page, collects
    its two keys and stops; [df_oi["timestamp"]] then raises outside any
    [try] and the run is aborted, although klines were fetched and the only
    thing missing is a secondary series. *)
Theorem open_interest_error_reply_aborts :
  fetch_binance_zip_parallel error_reply_world (csv_klines error_reply_world) "klines"
  = Ret (Some [DataLine oct1; DataLine oct2; HeaderLine; DataLine sep1; DataLine sep2]) /\
  poll_open_interest 1 error_reply_world
  = Some (mk_poll (params initial_poll) [] [params initial_poll] ["code"; "msg"]%string) /\
  forall fuel, pipeline (S fuel) error_reply_world = Aborted "KeyError: 'timestamp'".
Proof.
  split; [vm_compute; reflexivity |].
  split; [vm_compute; reflexivity |].
  intros fuel. vm_compute. reflexivity.
Qed.

(** The same end for a kline line whose [open_time] lies outside the
    range of [pd.to_datetime]: the conversion of step 1 raises. *)
Lemma out_of_range_open_time_aborts (w : World) (fuel : nat)
      (raw : list (RawLine KlineLine)) (k : KlineLine) :
  fetch_binance_zip_parallel w (csv_klines w) "klines" = Ret (Some raw) ->
  In (DataLine k) raw ->
  in_datetime_range (open_time k) = false ->
  pipeline fuel w = Aborted "OutOfBoundsDatetime".
Proof.
  intros Hk Hin Hrange. unfold pipeline. rewrite Hk. cbn [lift].
  unfold open_times_converted, to_datetime.
  assert (E : forallb in_datetime_range (map open_time (dropna raw)) = false).
  { destruct (forallb in_datetime_range (map open_time (dropna raw))) eqn:F;
      [| reflexivity].
    rewrite forallb_forall in F. rewrite <- Hrange. symmetry. apply F.
    apply in_map. clear - Hin.
    induction raw as [| [| a] raw IH]; simpl in *.
    - destruct Hin.
    - destruct Hin as [H | H]; [discriminate | now apply IH].
    - destruct Hin as [H | H]; [injection H as ->; now left | right; now apply IH]. }
  now rewrite E.
Qed.













(* ------------------------------------------------------------------ *)
(** ** Forward fill and the order of the rows *)

Lemma nth_set_nth_same {A : Type} (i : nat) (x d : A) (l : list A) :
  (i < List.length l)%nat -> nth i (set_nth i x l) d = x.
Proof.
  revert i; induction l as [| y l IH]; intros i Hi; simpl in *.
  - lia.
  - destruct i as [| i]; simpl; [reflexivity | apply IH; lia].
Qed.

Lemma set_nth_app_l {A : Type} (i : nat) (x : A) (l e : list A) :
  (i < List.length l)%nat -> set_nth i x (l ++ e) = set_nth i x l ++ e.
Proof.
  revert i; induction l as [| y l IH]; intros i Hi; simpl in *.
  - lia.
  - destruct i as [| i]; simpl; [reflexivity | rewrite IH; [reflexivity | lia]].
Qed.

(** Forward fill, row by row: the filled cell of the [n]-th row is the last
    non-null value found in the rows down to it, in the order they stand. *)
Lemma ffill_rows_spec (i : nat) (rs : list Row) :
  (forall r, In r rs -> (i < List.length (cells r))%nat) ->
  forall (n : nat) (prev : Cell) (r' : Row),
    nth_error (ffill_rows i prev rs) n = Some r' ->
    nth i (cells r') Null = last_non_null i prev (firstn (S n) rs).
Proof.
  induction rs as [| r rs IH]; intros Hwf n prev r'.
  - destruct n; discriminate.
  - assert (Hr : (i < List.length (cells r))%nat) by (apply Hwf; now left).
    assert (Hrs : forall x, In x rs -> (i < List.length (cells x))%nat)
      by (intros x Hx; apply Hwf; now right).
    cbn [ffill_rows firstn last_non_null].
    destruct (nth i (cells r) Null) as [| q] eqn:E; destruct n as [| n]; simpl.
    + intros H; injection H as <-. simpl. now apply nth_set_nth_same.
    + intros H. now apply (IH Hrs n prev r').
    + intros H; injection H as <-. exact E.
    + intros H. now apply (IH Hrs n (Val q) r').
Qed.

Lemma ffill_rows_app (i : nat) (prev : Cell) (a b : list Row) :
  ffill_rows i prev (a ++ b)
  = ffill_rows i prev a ++ ffill_rows i (last_non_null i prev a) b.
Proof.
  revert prev; induction a as [| r a IH]; intros prev; simpl.
  - reflexivity.
  - destruct (nth i (cells r) Null); simpl; now rewrite IH.
Qed.

Lemma join_row_as_map (right : DataFrame) (l : Row) :
  join_row right l = map (extend l) (appended right l) /\ appended right l <> [].
Proof.
  unfold join_row, appended.
  destruct (filter (fun r => timestamp_utc r =? timestamp_utc l) (rows right))
    as [| m ms]; simpl.
  - split; [reflexivity | discriminate].
  - split; [| discriminate]. f_equal. now rewrite map_map.
Qed.

(** The rows a left row gives all carry its cell at position [i]: filling
    them is filling it. *)
Lemma ffill_rows_extended (i : nat) (prev : Cell) (l : Row) (es : list (list Cell)) :
  (i < List.length (cells l))%nat ->
  es <> [] ->
  match nth i (cells l) Null with
  | Null =>
      ffill_rows i prev (map (extend l) es)
      = map (extend (mk_row (timestamp_utc l) (set_nth i prev (cells l)))) es /\
      last_non_null i prev (map (extend l) es) = prev
  | Val q =>
      ffill_rows i prev (map (extend l) es) = map (extend l) es /\
      last_non_null i prev (map (extend l) es) = Val q
  end.
Proof.
  intros Hi Hne.
  assert (Hcell : forall e, nth i (cells (extend l e)) Null = nth i (cells l) Null).
  { intros e. unfold extend; simpl. now apply app_nth1. }
  destruct (nth i (cells l) Null) as [| q] eqn:E.
  - clear Hne. induction es as [| e es [IH1 IH2]];
      cbn [map ffill_rows last_non_null]; [auto |].
    rewrite Hcell. rewrite IH1, IH2. split; [| reflexivity].
    f_equal. unfold extend; simpl. now rewrite set_nth_app_l.
  - destruct es as [| e es]; [congruence |]. clear Hne.
    cbn [map ffill_rows last_non_null]. rewrite Hcell.
    assert (H : ffill_rows i (Val q) (map (extend l) es) = map (extend l) es /\
                last_non_null i (Val q) (map (extend l) es) = Val q).
    { induction es as [| e' es [IH1 IH2]];
        cbn [map ffill_rows last_non_null]; [auto |].
      rewrite Hcell, IH1, IH2. auto. }
    destruct H as [H1 H2]. now rewrite H1, H2.
Qed.

Lemma ffill_rows_join (right : DataFrame) (i : nat) (rs : list Row) :
  (forall r, In r rs -> (i < List.length (cells r))%nat) ->
  forall prev,
    ffill_rows i prev (flat_map (join_row right) rs)
    = flat_map (join_row right) (ffill_rows i prev rs).
Proof.
  induction rs as [| r rs IH]; intros Hwf prev; simpl.
  - reflexivity.
  - assert (Hr : (i < List.length (cells r))%nat) by (apply Hwf; now left).
    assert (Hrs : forall x, In x rs -> (i < List.length (cells x))%nat)
      by (intros x Hx; apply Hwf; now right).
    rewrite ffill_rows_app.
    destruct (join_row_as_map right r) as [Hj Hne]. rewrite Hj.
    pose proof (ffill_rows_extended i prev r (appended right r) Hr Hne) as H.
    destruct (nth i (cells r) Null) as [| q]; destruct H as [H1 H2];
      rewrite H1, H2, (IH Hrs); simpl; f_equal.
    + destruct (join_row_as_map right
                  (mk_row (timestamp_utc r) (set_nth i prev (cells r)))) as [Hj' _].
      rewrite Hj'. reflexivity.
    + now rewrite Hj.
Qed.

(** Filling [fundingRate] before the open-interest join, as the script
    does, or after all four joins, as the specification words it, gives
    the same table. *)
Lemma ffill_commutes_with_join (c : string) (full right : DataFrame) :
  well_formed full = true ->
  In c (columns full) ->
  merge_left (ffill c full) right = ffill c (merge_left full right).
Proof.
  intros Hwf Hc. apply col_index_In in Hc. destruct Hc as [i Hi].
  unfold ffill at 2. cbn [columns merge_left].
  rewrite (col_index_app_l _ _ _ _ Hi).
  unfold ffill, merge_left. rewrite Hi. cbn [columns rows].
  f_equal. symmetry. apply ffill_rows_join.
  intros r Hr. rewrite (well_formed_row full r Hwf Hr).
  now apply col_index_bound in Hi.
Qed.

(** A left row without a match gets nulls in every column of the right
    table; no fill touches them afterwards. *)
Lemma join_row_unmatched (right : DataFrame) (l : Row) :
  (forall r, In r (rows right) -> timestamp_utc r <> timestamp_utc l) ->
  join_row right l = [extend l (nulls (List.length (columns right)))].
Proof.
  intros Hno. unfold join_row.
  destruct (filter (fun r => timestamp_utc r =? timestamp_utc l) (rows right))
    as [| m ms] eqn:F; [reflexivity |].
  assert (Hm : In m (filter (fun r => timestamp_utc r =? timestamp_utc l) (rows right)))
    by (rewrite F; now left).
  apply filter_In in Hm. destruct Hm as [Hm E]. apply Z.eqb_eq in E.
  now destruct (Hno m Hm).
Qed.

(** C3 at the sample run.  The October kline archive completes before the
    September one, so the October rows stand above the September rows when
    [fundingRate] is forward-filled; the sort of step 7 comes after.  In the
    table written, the two October rows, whose timestamps lie after the
    funding settlement of 1 September, have a null [fundingRate] instead of
    the settlement's 0.0001. *)
Theorem ffill_follows_completion_order :
  exists out,
    pipeline 1 sample_world = Done out /\
    timestamps (table out)
    = [1567296000000; 1567296060000; 1569888000000; 1569888060000] /\
    column (table out) "fundingRate"
    = [Some (Val (1 # 10000)); Some (Val (1 # 10000)); Some Null; Some Null].
Proof. eexists. repeat split; vm_compute; reflexivity. Qed.

(** With the very same archives completing in calendar order the fill
    reaches the October rows: the table depends on the completion order. *)
Lemma ffill_in_calendar_order :
  exists out,
    pipeline 1 sample_world_in_order = Done out /\
    timestamps (table out)
    = [1567296000000; 1567296060000; 1569888000000; 1569888060000] /\
    column (table out) "fundingRate"
    = [Some (Val (1 # 10000)); Some (Val (1 # 10000));
       Some (Val (1 # 10000)); Some (Val (1 # 10000))].
Proof. eexists. repeat split; vm_compute; reflexivity. Qed.

(* ================================================================== *)
(** * Further properties of the script *)

(* ------------------------------------------------------------------ *)
(** ** [month_range] *)

Lemma index_date_leb (d e : date) :
  valid_month d -> valid_month e ->
  month_index d <= month_index e -> day d <= day e ->
  date_leb d e = true.
Proof.
  unfold valid_month, month_index, date_leb. intros Hd He Hi Hday.
  destruct (Z.lt_trichotomy (year d) (year e)) as [Hy | [Hy | Hy]].
  - apply Z.ltb_lt in Hy. now rewrite Hy.
  - rewrite Hy, Z.ltb_irrefl, Z.eqb_refl. simpl.
    destruct (Z.lt_trichotomy (month d) (month e)) as [Hm | [Hm | Hm]].
    + apply Z.ltb_lt in Hm. now rewrite Hm.
    + rewrite Hm, Z.ltb_irrefl, Z.eqb_refl. simpl. now apply Z.leb_le.
    + lia.
  - lia.
Qed.

Lemma next_month_day (d : date) : day (next_month d) = 1.
Proof. unfold next_month. destruct (month d =? 12); reflexivity. Qed.

(** From a first of the month on, the loop yields one month after the
    other up to the month of [e]. *)
Lemma month_range_loop_consecutive (fuel : nat) (d e : date) :
  valid_month d -> valid_month e ->
  day d = 1 -> 1 <= day e ->
  Z.of_nat fuel = month_index e - month_index d + 1 ->
  map (fun ym => 12 * fst ym + snd ym) (month_range_loop fuel d e)
  = map (fun k => month_index d + Z.of_nat k) (seq 0 fuel) /\
  Forall (fun ym => 1 <= snd ym <= 12) (month_range_loop fuel d e).
Proof.
  revert d; induction fuel as [| fuel IH]; intros d Hd He Hday Hdaye Hfuel.
  - simpl. auto.
  - cbn [month_range_loop].
    rewrite index_date_leb by (try assumption; lia).
    destruct (next_month_index d Hd) as [Hi Hv].
    destruct (IH (next_month d) Hv He (next_month_day d) Hdaye) as [IH1 IH2]; [lia |].
    split.
    + cbn [map seq fst snd]. f_equal.
      * unfold month_index. simpl. lia.
      * rewrite IH1, <- seq_shift, map_map. apply map_ext. intros k. lia.
    + constructor; [exact Hd | exact IH2].
Qed.

(** X1. From a start date to a later end date [month_range] yields every
    month from the start's to the end's, each once and in order, December
    being followed by January of the next year: [months_between + 1] pairs
    whose month numbers stay within 1..12. *)
Theorem month_range_consecutive :
  forall start end_ : date,
    valid_month start -> valid_month end_ ->
    1 <= day end_ ->
    date_leb start end_ = true ->
    map (fun ym => 12 * fst ym + snd ym) (month_range start end_)
    = map (fun k => month_index start + Z.of_nat k)
          (seq 0 (Z.to_nat (months_between start end_ + 1))) /\
    Forall (fun ym => 1 <= snd ym <= 12) (month_range start end_).
Proof.
  intros start end_ Hs He Hday Hle.
  pose proof (date_leb_index start end_ Hs He Hle) as Hidx.
  unfold month_range.
  assert (Hn : Z.to_nat (months_between start end_ + 1)
               = S (Z.to_nat (months_between start end_))).
  { unfold months_between, month_index in *. lia. }
  rewrite Hn. cbn [month_range_loop]. rewrite Hle.
  destruct (next_month_index start Hs) as [Hi Hv].
  destruct (month_range_loop_consecutive (Z.to_nat (months_between start end_))
              (next_month start) end_ Hv He (next_month_day start) Hday) as [H1 H2].
  { unfold months_between, month_index in *. lia. }
  split.
  - cbn [map seq fst snd]. f_equal.
    + unfold month_index. simpl. lia.
    + rewrite H1, <- seq_shift, map_map. apply map_ext. intros k. lia.
  - constructor; [exact Hs | exact H2].
Qed.

Lemma month_range_consecutive_witness :
  map (fun ym => 12 * fst ym + snd ym) (month_range START (mk_date 2020 2 14))
  = map (fun k => month_index START + Z.of_nat k)
        (seq 0 (Z.to_nat (months_between START (mk_date 2020 2 14) + 1))) /\
  Forall (fun ym => 1 <= snd ym <= 12) (month_range START (mk_date 2020 2 14)).
Proof.
  apply month_range_consecutive.
  - unfold valid_month; simpl; lia.
  - unfold valid_month; simpl; lia.
  - simpl; lia.
  - reflexivity.
Defined.

(** X2. The generator terminates by its own test: once
    [months_between + 1] iterations are done the condition [d <= end] is
    false, so letting the loop run longer yields nothing more. *)
Theorem month_range_loop_ends :
  forall (start end_ : date) (extra : nat),
    valid_month start -> valid_month end_ ->
    month_range_loop (Z.to_nat (months_between start end_ + 1) + extra) start end_
    = month_range start end_.
Proof. intros. now apply month_range_complete. Qed.

Lemma month_range_loop_ends_witness :
  month_range_loop (Z.to_nat (months_between (mk_date 2019 11 30) (mk_date 2020 1 1) + 1) + 7)
                   (mk_date 2019 11 30) (mk_date 2020 1 1)
  = month_range (mk_date 2019 11 30) (mk_date 2020 1 1).
Proof.
  apply month_range_loop_ends.
  - unfold valid_month; simpl; lia.
  - unfold valid_month; simpl; lia.
Defined.

(* ------------------------------------------------------------------ *)
(** ** [download_single_file]: the retry budget *)

(** A transient outcome before the last attempt makes the loop go on. *)
Lemma attempt_body_transient (h : Http) (u : Url) (retries attempt : nat) :
  transient (h u attempt) = true ->
  (S attempt < retries)%nat ->
  attempt_body h u retries attempt = Ret Continue.
Proof.
  unfold transient, attempt_body, requests_get, try_except, bind.
  intros Ht Hlt. destruct (h u attempt) as [e | r].
  - assert (E : Nat.eqb attempt (retries - 1) = false) by (apply Nat.eqb_neq; lia).
    now rewrite E.
  - apply andb_true_iff in Ht. destruct Ht as [H200 H404].
    apply negb_true_iff in H200, H404. now rewrite H200, H404.
Qed.

(** A transient outcome never makes the call return a body. *)
Lemma attempt_body_transient_any (h : Http) (u : Url) (retries attempt : nat) :
  transient (h u attempt) = true ->
  attempt_body h u retries attempt = Ret Continue \/
  attempt_body h u retries attempt = Ret (Return None).
Proof.
  unfold transient, attempt_body, requests_get, try_except, bind.
  intros Ht. destruct (h u attempt) as [e | r].
  - destruct (Nat.eqb attempt (retries - 1)); auto.
  - apply andb_true_iff in Ht. destruct Ht as [H200 H404].
    apply negb_true_iff in H200, H404. rewrite H200, H404. auto.
Qed.

Lemma attempts_from_skip (h : Http) (u : Url) (retries : nat) :
  forall k attempt remaining,
    (k < remaining)%nat ->
    (attempt + remaining = retries)%nat ->
    (forall i, (attempt <= i < attempt + k)%nat -> transient (h u i) = true) ->
    attempts_from h u retries attempt remaining
    = attempts_from h u retries (attempt + k) (remaining - k).
Proof.
  induction k as [| k IH]; intros attempt remaining Hk Hsum Htr.
  - now rewrite Nat.add_0_r, Nat.sub_0_r.
  - destruct remaining as [| remaining']; [lia |]. cbn [attempts_from].
    rewrite attempt_body_transient by (try apply Htr; lia).
    rewrite (IH (S attempt) remaining') by (try lia; intros i Hi; apply Htr; lia).
    f_equal; lia.
Qed.

Lemma attempts_from_all_transient (h : Http) (u : Url) (retries : nat) :
  forall remaining attempt,
    (forall i, (attempt <= i < attempt + remaining)%nat -> transient (h u i) = true) ->
    attempts_from h u retries attempt remaining = Ret None.
Proof.
  induction remaining as [| k IH]; intros attempt Htr; simpl.
  - reflexivity.
  - destruct (attempt_body_transient_any h u retries attempt) as [-> | ->].
    + apply Htr. lia.
    + apply IH. intros i Hi. apply Htr. lia.
    + reflexivity.
Qed.

Lemma attempts_from_agree (h h' : Http) (u : Url) (retries : nat) :
  forall remaining attempt,
    (forall i, (attempt <= i < attempt + remaining)%nat -> h u i = h' u i) ->
    attempts_from h u retries attempt remaining
    = attempts_from h' u retries attempt remaining.
Proof.
  induction remaining as [| k IH]; intros attempt Hag; simpl.
  - reflexivity.
  - assert (E : attempt_body h u retries attempt = attempt_body h' u retries attempt).
    { unfold attempt_body, requests_get. rewrite (Hag attempt) by lia. reflexivity. }
    rewrite E. destruct (attempt_body h' u retries attempt) as [[| v] | e]; try reflexivity.
    apply IH. intros i Hi. apply Hag. lia.
Qed.

(** X3. The first attempt that is answered 200 or 404 settles the call,
    whatever the budget: after [k] transient attempts (exceptions, other
    statuses) with [k] below [retries], a 200 at attempt [k] returns its
    body and a 404 returns [None]; nothing the server would do at later
    attempts matters. *)
Theorem download_single_file_first_decisive :
  forall (h : Http) (u : Url) (retries k : nat) (r : Response),
    (k < retries)%nat ->
    (forall i, (i < k)%nat -> transient (h u i) = true) ->
    h u k = Answers r ->
    (status_code r = 200 ->
     download_single_file h u retries = Ret (Some (content r))) /\
    (status_code r = 404 ->
     download_single_file h u retries = Ret None).
Proof.
  intros h u retries k r Hk Htr Hget.
  unfold download_single_file.
  rewrite (attempts_from_skip h u retries k 0 retries) by (try lia; intros i Hi; apply Htr; lia).
  destruct (retries - k)%nat as [| rest] eqn:E; [lia |].
  cbn [attempts_from Nat.add].
  unfold attempt_body, requests_get, try_except, bind. rewrite Hget.
  split; intros Hs; rewrite Hs; reflexivity.
Qed.

Lemma download_single_file_first_decisive_witness :
  let h : Http :=
    fun _ n =>
      match n with
      | 0%nat => Answers (mk_response 503 [])
      | 1%nat => Fails "ConnectionError"
      | 2%nat => Answers (mk_response 404 [])
      | _ => Answers (mk_response 200 [x50; x4b])
      end in
  let u := mk_url "klines" 2024 5 in
  (404 = 200 -> download_single_file h u 5 = Ret (Some [])) /\
  (404 = 404 -> download_single_file h u 5 = Ret None).
Proof.
  intros h u.
  apply (download_single_file_first_decisive h u 5 2 (mk_response 404 [])).
  - lia.
  - intros [| [| i]] Hi; [reflexivity | reflexivity | lia].
  - reflexivity.
Defined.

(** X4. When every attempt of the budget is transient, the download gives
    up and returns [None]: an exception at the last attempt is reported and
    swallowed, and a non-200/404 status at the last attempt falls out of
    the loop. *)
Theorem download_single_file_gives_up :
  forall (h : Http) (u : Url) (retries : nat),
    (forall i, (i < retries)%nat -> transient (h u i) = true) ->
    download_single_file h u retries = Ret None.
Proof.
  intros h u retries Htr. unfold download_single_file.
  apply attempts_from_all_transient. intros i Hi. apply Htr. lia.
Qed.

Lemma download_single_file_gives_up_witness :
  download_single_file
    (fun _ n => if Nat.even n then Fails "ReadTimeout" else Answers (mk_response 429 []))
    (mk_url "fundingRate" 2023 1) RETRY_ATTEMPTS
  = Ret None.
Proof.
  apply download_single_file_gives_up.
  intros i Hi. destruct (Nat.even i); reflexivity.
Defined.

(** X5. The call looks at no more than [retries] requests: two servers
    that behave alike on the first [retries] requests to a URL give the
    same result, whatever they would do afterwards. *)
Theorem download_single_file_within_budget :
  forall (h h' : Http) (u : Url) (retries : nat),
    (forall i, (i < retries)%nat -> h u i = h' u i) ->
    download_single_file h u retries = download_single_file h' u retries.
Proof.
  intros h h' u retries Hag. unfold download_single_file.
  apply attempts_from_agree. intros i Hi. apply Hag. lia.
Qed.

Lemma download_single_file_within_budget_witness :
  let u := mk_url "klines" 2022 7 in
  download_single_file
    (fun _ n => if Nat.ltb n 3 then Fails "ReadTimeout" else Answers (mk_response 200 [x50]))
    u RETRY_ATTEMPTS
  = download_single_file (always (Fails "ReadTimeout")) u RETRY_ATTEMPTS.
Proof.
  intros u. apply download_single_file_within_budget.
  intros [| [| [| i]]] Hi; try reflexivity. unfold RETRY_ATTEMPTS in Hi. lia.
Defined.

(* ------------------------------------------------------------------ *)
(** ** [fetch_binance_zip_parallel]: what each archive contributes *)

Lemma read_members_app {L : Type} (read_csv : bytes -> Exc (list L))
      (members : list bytes) (dfs : list (list L)) :
  read_members read_csv members dfs
  = (dfs ++ fst (read_members read_csv members []),
     snd (read_members read_csv members [])).
Proof.
  revert dfs; induction members as [| f members IH]; intros dfs; simpl.
  - now rewrite app_nil_r.
  - destruct (read_csv f) as [df | e]; simpl.
    + rewrite (IH (dfs ++ [df])), (IH [df]). simpl. now rewrite <- app_assoc.
    + now rewrite app_nil_r.
Qed.

Lemma collect_app {L : Type} (w : World) (read_csv : bytes -> Exc (list L))
      (c : option bytes) (dfs : list (list L)) :
  collect w read_csv c dfs = dfs ++ collect w read_csv c [].
Proof.
  unfold collect. destruct c as [[| b body] |]; try now rewrite app_nil_r.
  destruct (unzip w (b :: body)) as [members | e]; [| now rewrite app_nil_r].
  now rewrite read_members_app.
Qed.

Lemma download_as_downloaded (w : World) (u : Url) :
  download_single_file (http w) u RETRY_ATTEMPTS = Ret (downloaded w u).
Proof.
  unfold downloaded.
  destruct (download_single_file_returns (http w) u RETRY_ATTEMPTS) as [v ->].
  reflexivity.
Qed.

Lemma gather_frames {L : Type} (w : World) (read_csv : bytes -> Exc (list L))
      (urls : list Url) (dfs : list (list L)) :
  gather w read_csv urls dfs = Ret (dfs ++ flat_map (archive_frames w read_csv) urls).
Proof.
  revert dfs; induction urls as [| u urls IH]; intros dfs; simpl.
  - now rewrite app_nil_r.
  - rewrite download_as_downloaded. simpl. rewrite IH, collect_app.
    unfold archive_frames. now rewrite <- app_assoc.
Qed.

(** X6. A fetch is the sum of its archives: the frames come archive by
    archive in completion order, each archive giving what its own download
    and decoding give and nothing depending on the others; the result is
    [None] when there is no frame at all and their concatenation
    otherwise. *)
Theorem fetch_binance_zip_parallel_by_archive :
  forall (L : Type) (w : World) (read_csv : bytes -> Exc (list L)) (category : string),
    fetch_binance_zip_parallel w read_csv category
    = Ret (match flat_map (archive_frames w read_csv)
                          (as_completed w (archive_urls category START (today w))) with
           | [] => None
           | fs => Some (pd_concat fs)
           end).
Proof.
  intros L w read_csv category. unfold fetch_binance_zip_parallel.
  rewrite gather_frames. simpl.
  destruct (flat_map (archive_frames w read_csv) _); reflexivity.
Qed.

Lemma pd_concat_perm {L : Type} (fs gs : list (list L)) :
  Permutation fs gs -> Permutation (pd_concat fs) (pd_concat gs).
Proof.
  unfold pd_concat. induction 1 as [| x l l' _ IH | x y l | l l' l'' _ IH1 _ IH2]; simpl.
  - constructor.
  - now apply Permutation_app_head.
  - rewrite !app_assoc. apply Permutation_app_tail, Permutation_app_comm.
  - eapply Permutation_trans; eassumption.
Qed.

Lemma fetch_order_same_rows :
  forall (L : Type) (w : World) (order : list Url -> list Url)
         (read_csv : bytes -> Exc (list L)) (category : string),
    Permutation (as_completed w (archive_urls category START (today w)))
                (order (archive_urls category START (today w))) ->
    same_rows (fetch_binance_zip_parallel w read_csv category)
              (fetch_binance_zip_parallel (with_order w order) read_csv category).
Proof.
  intros L w order read_csv category Hperm.
  rewrite !fetch_binance_zip_parallel_by_archive.
  assert (Hf : Permutation
                 (flat_map (archive_frames w read_csv)
                    (as_completed w (archive_urls category START (today w))))
                 (flat_map (archive_frames (with_order w order) read_csv)
                    (as_completed (with_order w order)
                       (archive_urls category START (today (with_order w order)))))).
  { simpl. apply (Permutation_flat_map (archive_frames w read_csv)) in Hperm.
    exact Hperm. }
  destruct (flat_map (archive_frames w read_csv) _) as [| f fs] eqn:E1;
    destruct (flat_map (archive_frames (with_order w order) read_csv) _) as [| g gs] eqn:E2;
    simpl.
  - exact I.
  - apply Permutation_nil in Hf. discriminate.
  - apply Permutation_sym, Permutation_nil in Hf. discriminate.
  - exact (pd_concat_perm (f :: fs) (g :: gs) Hf).
Qed.

(** X7. The completion order of the downloads only permutes the fetched
    rows: two runs over the same archives whose completion orders are
    permutations of one another fetch nothing both, or the same rows up to
    their order. *)
Theorem fetch_binance_zip_parallel_order :
  forall (L : Type) (w : World) (order : list Url -> list Url)
         (read_csv : bytes -> Exc (list L)) (category : string),
    Permutation (as_completed w (archive_urls category START (today w)))
                (order (archive_urls category START (today w))) ->
    same_rows (fetch_binance_zip_parallel w read_csv category)
              (fetch_binance_zip_parallel (with_order w order) read_csv category).
Proof. exact fetch_order_same_rows. Qed.

Lemma fetch_binance_zip_parallel_order_witness :
  same_rows
    (fetch_binance_zip_parallel sample_world (csv_klines sample_world) "klines")
    (fetch_binance_zip_parallel (with_order sample_world (fun urls => urls))
                                (csv_klines sample_world) "klines").
Proof.
  apply fetch_binance_zip_parallel_order.
  vm_compute. apply Permutation_rev.
Defined.

(** X8. An archive that cannot be used is skipped without a trace: when
    its download returns nothing (404, retries exhausted), or an empty
    body, or a body that does not open as a zip, the frames gathered are
    those gathered without that URL, whatever stands before and after it
    in the completion order. *)
Theorem gather_skips_unusable_archive :
  forall (L : Type) (w : World) (read_csv : bytes -> Exc (list L)) (u : Url),
    downloaded w u = None \/
    downloaded w u = Some [] \/
    (exists body e, downloaded w u = Some body /\ unzip w body = Raise e) ->
    forall (before after : list Url) (dfs : list (list L)),
      gather w read_csv (before ++ u :: after) dfs
      = gather w read_csv (before ++ after) dfs.
Proof.
  intros L w read_csv u Hu before after dfs.
  rewrite !gather_frames, !flat_map_app. cbn [flat_map].
  assert (E : archive_frames w read_csv u = []).
  { unfold archive_frames, collect.
    destruct Hu as [-> | [-> | (body & e & -> & Hz)]]; try reflexivity.
    destruct body; [reflexivity | now rewrite Hz]. }
  now rewrite E.
Qed.

Lemma gather_skips_unusable_archive_witness :
  gather sample_world (csv_klines sample_world)
         ([mk_url "klines" 2019 10] ++ mk_url "klines" 2019 11 :: [mk_url "klines" 2019 9]) []
  = gather sample_world (csv_klines sample_world)
           ([mk_url "klines" 2019 10] ++ [mk_url "klines" 2019 9]) [].
Proof.
  apply gather_skips_unusable_archive.
  left. reflexivity.
Defined.

(** X9. Inside one archive the members are read in order and a member that
    fails to parse ends the reading of that archive: the frames of the
    members before it are already appended and stay, those after it are
    never read. *)
Theorem read_members_stops_at_failure :
  forall (L : Type) (read_csv : bytes -> Exc (list L))
         (good : list bytes) (frames : list (list L)) (bad : bytes) (e : string)
         (rest : list bytes) (dfs : list (list L)),
    Forall2 (fun f df => read_csv f = Ret df) good frames ->
    read_csv bad = Raise e ->
    read_members read_csv (good ++ bad :: rest) dfs = (dfs ++ frames, Raise e).
Proof.
  intros L read_csv good frames bad e rest dfs Hgood Hbad.
  revert dfs; induction Hgood as [| f df good frames Hf _ IH]; intros dfs; simpl.
  - now rewrite Hbad, app_nil_r.
  - rewrite Hf, IH. now rewrite <- app_assoc.
Qed.

Lemma read_members_stops_at_failure_witness :
  read_members (csv_klines sample_world) ([[x02]; [x01]] ++ [xff] :: [[x02]]) []
  = ([] ++ [[DataLine oct1; DataLine oct2];
            [HeaderLine; DataLine sep1; DataLine sep2]],
     Raise "EmptyDataError").
Proof.
  apply read_members_stops_at_failure.
  - repeat constructor.
  - reflexivity.
Defined.

(* ------------------------------------------------------------------ *)
(** ** [validate_data]: what is removed and what is kept *)

Lemma existsb_eqb_same (k : Z) (seen seen' : list Z) :
  (forall x, In x seen <-> In x seen') ->
  existsb (Z.eqb k) seen = existsb (Z.eqb k) seen'.
Proof.
  intros H. destruct (existsb (Z.eqb k) seen') eqn:E.
  - apply existsb_eqb_In. apply H. now apply existsb_eqb_In.
  - destruct (existsb (Z.eqb k) seen) eqn:E'; [| reflexivity].
    apply existsb_eqb_In, H, existsb_eqb_In in E'. congruence.
Qed.

(** [duplicated] and [drop_duplicates] agree on what a duplicate is. *)
Lemma duplicated_from_count (seen seen' : list Z) (rs : list Row) :
  (forall x, In x seen <-> In x seen') ->
  (count_true (duplicated_from seen (map timestamp_utc rs))
   + List.length (drop_duplicates_from seen' rs))%nat
  = List.length rs.
Proof.
  revert seen seen'; induction rs as [| r rs IH]; intros seen seen' Hs; simpl.
  - reflexivity.
  - unfold count_true in *. simpl.
    rewrite (existsb_eqb_same _ seen seen' Hs).
    destruct (existsb (Z.eqb (timestamp_utc r)) seen') eqn:E; simpl.
    + apply existsb_eqb_In in E.
      assert (H : forall x, In x (timestamp_utc r :: seen) <-> In x seen').
      { intros x. simpl. rewrite Hs. split; [intros [<- | H]; assumption | tauto]. }
      specialize (IH _ _ H). lia.
    + assert (H : forall x, In x (timestamp_utc r :: seen)
                            <-> In x (timestamp_utc r :: seen')).
      { intros x. simpl. now rewrite Hs. }
      specialize (IH _ _ H). simpl. lia.
Qed.

Lemma validate_data_count (df : DataFrame) :
  (List.length (rows (fst (validate_data df))) + dupes (snd (validate_data df)))%nat
  = List.length (rows df).
Proof.
  unfold validate_data. cbn [fst snd dupes].
  pose proof (duplicated_from_count [] [] (rows df) (fun x => iff_refl _)) as H.
  unfold duplicated, timestamps.
  destruct (count_true (duplicated_from [] (map timestamp_utc (rows df)))) as [| d] eqn:E.
  - simpl. simpl in H. lia.
  - simpl. simpl in H. lia.
Qed.

(** X10. The number of duplicate timestamps [validate_data] reports is the
    number of rows it removes: the table handed back has as many rows as
    the table received less [dupes]. *)
Theorem validate_data_removes_dupes :
  forall df : DataFrame,
    (List.length (rows (fst (validate_data df))) + dupes (snd (validate_data df)))%nat
    = List.length (rows df).
Proof. exact validate_data_count. Qed.

Lemma drop_duplicates_from_first (seen : list Z) (rs : list Row) (r : Row) :
  In r (drop_duplicates_from seen rs) <->
  exists l1 l2, rs = l1 ++ r :: l2 /\
                ~ In (timestamp_utc r) (seen ++ map timestamp_utc l1).
Proof.
  revert seen; induction rs as [| x rs IH]; intros seen; simpl.
  - split; [intros [] | intros (l1 & l2 & H & _); destruct l1; discriminate].
  - destruct (existsb (Z.eqb (timestamp_utc x)) seen) eqn:E.
    + apply existsb_eqb_In in E. rewrite IH. split.
      * intros (l1 & l2 & -> & Hn). exists (x :: l1), l2. split; [reflexivity |].
        rewrite in_app_iff in *. simpl. intros [H | [H | H]]; [tauto | | tauto].
        apply Hn. left. now rewrite <- H.
      * intros (l1 & l2 & Hrs & Hn). destruct l1 as [| y l1]; simpl in Hrs.
        -- injection Hrs as -> ->. exfalso. apply Hn. apply in_or_app. now left.
        -- injection Hrs as -> ->. exists l1, l2. split; [reflexivity |].
           rewrite in_app_iff in *. simpl in Hn. tauto.
    + assert (Hx : ~ In (timestamp_utc x) seen).
      { intros Hin. apply existsb_eqb_In in Hin. congruence. }
      simpl. rewrite IH. split.
      * intros [<- | (l1 & l2 & -> & Hn)].
        -- exists [], rs. split; [reflexivity |]. now rewrite app_nil_r.
        -- exists (x :: l1), l2. split; [reflexivity |].
           rewrite in_app_iff in *. simpl in *. tauto.
      * intros (l1 & l2 & Hrs & Hn). destruct l1 as [| y l1]; simpl in Hrs.
        -- injection Hrs as -> ->. now left.
        -- injection Hrs as -> ->. right. exists l1, l2. split; [reflexivity |].
           rewrite in_app_iff in *. simpl in *. tauto.
Qed.

Lemma drop_duplicates_from_keys (seen : list Z) (rs : list Row) (k : Z) :
  In k (map timestamp_utc (drop_duplicates_from seen rs)) <->
  In k (map timestamp_utc rs) /\ ~ In k seen.
Proof.
  revert seen; induction rs as [| x rs IH]; intros seen; simpl.
  - tauto.
  - destruct (existsb (Z.eqb (timestamp_utc x)) seen) eqn:E.
    + apply existsb_eqb_In in E. rewrite IH. split.
      * tauto.
      * intros [[<- | H] Hn]; [contradiction | tauto].
    + assert (Hx : ~ In (timestamp_utc x) seen).
      { intros Hin. apply existsb_eqb_In in Hin. congruence. }
      simpl. rewrite IH. simpl. split.
      * intros [<- | [H Hn]]; [tauto |]. split; [tauto |]. intros Hs. apply Hn. now right.
      * intros [[<- | H] Hn]; [now left |].
        destruct (Z.eq_dec (timestamp_utc x) k) as [-> | Hne]; [now left |].
        right. split; [exact H |]. intros [Heq | Hs]; [contradiction | contradiction].
Qed.

Lemma drop_duplicates_from_same (seen : list Z) (rs : list Row) :
  NoDup (map timestamp_utc rs) ->
  (forall r, In r rs -> ~ In (timestamp_utc r) seen) ->
  drop_duplicates_from seen rs = rs.
Proof.
  revert seen; induction rs as [| x rs IH]; intros seen Hnd Hseen; simpl.
  - reflexivity.
  - inversion Hnd as [| ? ? Hx Hnd']; subst.
    destruct (existsb (Z.eqb (timestamp_utc x)) seen) eqn:E.
    + apply existsb_eqb_In in E. exfalso. apply (Hseen x); [now left | exact E].
    + f_equal. apply IH; [exact Hnd' |].
      intros r Hr [Heq | Hin].
      * apply Hx. rewrite Heq. now apply in_map.
      * apply (Hseen r); [now right | exact Hin].
Qed.

(** X11. What [validate_data] hands back: no timestamp occurs twice, every
    timestamp of the input is still there, and the rows kept are exactly
    the first occurrences of their timestamps in input order. *)
Theorem validate_data_keeps_first :
  forall df : DataFrame,
    NoDup (timestamps (fst (validate_data df))) /\
    (forall k, In k (timestamps (fst (validate_data df))) <-> In k (timestamps df)) /\
    (forall r, In r (rows (fst (validate_data df))) <->
               exists l1 l2, rows df = l1 ++ r :: l2 /\
                             ~ In (timestamp_utc r) (map timestamp_utc l1)).
Proof.
  intros df. split; [apply validate_data_NoDup |].
  destruct (validate_data_rows df) as [E | E].
  - assert (Hnd : NoDup (timestamps df)) by (rewrite <- E at 1; apply validate_data_NoDup).
    rewrite E. split; [tauto |].
    intros r. rewrite <- (drop_duplicates_from_same [] (rows df)) at 1;
      [| exact Hnd | intros x _ []].
    apply drop_duplicates_from_first.
  - rewrite E. split.
    + intros k. unfold timestamps, drop_duplicates; simpl.
      rewrite drop_duplicates_from_keys. simpl. tauto.
    + intros r. apply drop_duplicates_from_first.
Qed.

(** X12. [validate_data] is idempotent on every table, clean or not:
    validating a validated table hands it back unchanged. *)
Theorem validate_data_twice :
  forall df : DataFrame,
    fst (validate_data (fst (validate_data df))) = fst (validate_data df) /\
    dupes (snd (validate_data (fst (validate_data df)))) = O.
Proof.
  intros df. split; [apply validate_data_idempotent |].
  pose proof (validate_data_count (fst (validate_data df))) as H.
  rewrite validate_data_idempotent in H. lia.
Qed.

(* ------------------------------------------------------------------ *)
(** ** Step 7: what the sort and the duplicate removal keep *)

Lemma sort_rows_of_sorted (rs : list Row) :
  StronglySorted key_le rs -> sort_rows rs = rs.
Proof.
  induction 1 as [| r rs Hs IH Hr]; simpl.
  - reflexivity.
  - rewrite IH. destruct rs as [| x rs']; [reflexivity |]. simpl.
    inversion Hr as [| ? ? Hx _]; subst. unfold key_le in Hx.
    apply Z.leb_le in Hx. now rewrite Hx.
Qed.

Lemma step7_rows_sorted (full : DataFrame) :
  StronglySorted key_le (rows (step7 full)).
Proof.
  unfold step7, drop_duplicates, sort_values; simpl.
  apply drop_duplicates_from_sorted, sort_rows_sorted.
Qed.

(** X13. [sort_values] returns the rows it was given, each as often as
    before and none altered, in ascending order of [timestamp_utc]; the
    columns are untouched. *)
Theorem sort_values_sorted_permutation :
  forall df : DataFrame,
    Permutation (rows df) (rows (sort_values df)) /\
    StronglySorted key_le (rows (sort_values df)) /\
    columns (sort_values df) = columns df.
Proof.
  intros df. repeat split.
  - apply sort_rows_perm.
  - apply sort_rows_sorted.
Qed.

(** X14. Step 7 loses no minute and alters no row: the final table has
    exactly the timestamps of the merged table, every one of its rows is a
    row of the merged table, and its columns are the same. *)
Theorem step7_keeps_every_timestamp :
  forall full : DataFrame,
    (forall k, In k (timestamps (step7 full)) <-> In k (timestamps full)) /\
    (forall r, In r (rows (step7 full)) -> In r (rows full)) /\
    columns (step7 full) = columns full.
Proof.
  intros full. repeat split.
  - unfold timestamps, step7, drop_duplicates, sort_values; simpl.
    rewrite drop_duplicates_from_keys. intros [H _]. revert H.
    apply Permutation_in, Permutation_map, Permutation_sym, sort_rows_perm.
  - unfold timestamps, step7, drop_duplicates, sort_values; simpl.
    rewrite drop_duplicates_from_keys. intros H. split; [| intros []].
    revert H. apply Permutation_in, Permutation_map, sort_rows_perm.
  - intros r Hr. unfold step7, drop_duplicates, sort_values in Hr; simpl in Hr.
    apply drop_duplicates_from_In in Hr. destruct Hr as [Hr _].
    revert Hr. apply Permutation_in, Permutation_sym, sort_rows_perm.
Qed.

(** X15. Step 7 is idempotent: sorting and de-duplicating the final table
    again gives the final table. *)
Theorem step7_idempotent :
  forall full : DataFrame, step7 (step7 full) = step7 full.
Proof.
  intros full.
  pose proof (step7_rows_sorted full) as Hs.
  assert (Hnd : NoDup (map timestamp_utc (rows (step7 full)))).
  { apply drop_duplicates_from_NoDup. }
  unfold step7 at 1. unfold drop_duplicates, sort_values. cbn [columns rows].
  rewrite (sort_rows_of_sorted _ Hs).
  rewrite drop_duplicates_from_same; [reflexivity | exact Hnd | intros r _ []].
Qed.

(* ------------------------------------------------------------------ *)
(** ** Steps 1-3: stray header lines *)

Lemma dropna_app {A : Type} (l1 l2 : list (RawLine A)) :
  dropna (l1 ++ l2) = dropna l1 ++ dropna l2.
Proof.
  induction l1 as [| [| a] l1 IH]; simpl; [reflexivity | exact IH | now rewrite IH].
Qed.

(** X16. A line whose [open_time] is not numeric, wherever it stands in
    the fetched data, leaves no trace in the normalised series: the kline
    series and the mark/index price series are those of the data without
    that line. *)
Theorem normalize_ignores_header_lines :
  forall (before after : list (RawLine KlineLine))
         (pbefore pafter : list (RawLine PriceLine)) (cols : list string),
    normalize_klines (before ++ HeaderLine :: after) = normalize_klines (before ++ after) /\
    normalize_price cols (pbefore ++ HeaderLine :: pafter)
    = normalize_price cols (pbefore ++ pafter).
Proof.
  intros. unfold normalize_klines, normalize_price.
  rewrite !dropna_app. simpl. auto.
Qed.

(* ------------------------------------------------------------------ *)
(** ** Step 5: pagination in general *)

Lemma flat_map_shift {A : Type} (f : nat -> list A) (start len : nat) :
  flat_map f (seq (S start) len) = flat_map (fun j => f (S j)) (seq start len).
Proof.
  revert start; induction len as [| len IH]; intros start; simpl.
  - reflexivity.
  - now rewrite IH.
Qed.

(** [k] full pages in a row: the loop asks [k] times and keeps them all. *)
Lemma poll_loop_full_pages (get_ : nat -> OIParams -> OIReply) :
  forall (k fuel : nat) (pages : nat -> list Snapshot) (st : PollState),
    (forall j ps, (j < k)%nat ->
       get_ (List.length (sent st) + j)%nat ps = OIPage (pages j) /\
       (PAGE_SIZE <= List.length (pages j))%nat) ->
    exists st',
      poll_loop (k + fuel) get_ st = poll_loop fuel get_ st' /\
      oi_data st' = oi_data st ++ flat_map pages (seq 0 k) /\
      List.length (sent st') = (List.length (sent st) + k)%nat.
Proof.
  induction k as [| k IH]; intros fuel pages st Hpages.
  - exists st. simpl. now rewrite app_nil_r, Nat.add_0_r.
  - destruct (Hpages 0%nat (params st)) as [H0 Hlen0]; [lia |].
    rewrite Nat.add_0_r in H0.
    cbn [Nat.add]. rewrite (poll_loop_full _ get_ st (pages 0%nat) H0 Hlen0).
    destruct (IH fuel (fun j => pages (S j))
                 (mk_poll (set_startTime (params st)
                             (timestamp (last (pages 0%nat) no_snapshot) + 60000))
                          (oi_data st ++ pages 0%nat) (sent st ++ [params st]) (stray st)))
      as (st' & Hloop & Hdata & Hsent).
    { intros j ps Hj. cbn [sent]. rewrite length_app. simpl.
      replace (List.length (sent st) + 1 + j)%nat with (List.length (sent st) + S j)%nat by lia.
      apply Hpages. lia. }
    exists st'. split; [exact Hloop |]. split.
    + rewrite Hdata. cbn [oi_data seq flat_map].
      now rewrite <- app_assoc, flat_map_shift.
    + rewrite Hsent. cbn [sent]. rewrite length_app. simpl. lia.
Qed.

(** X17. Pagination in general: when the endpoint serves [k] pages of at
    least 500 snapshots and then one of fewer than 500 (an empty one
    included), the loop stops after [k + 1] requests and has collected the
    snapshots of all [k + 1] pages in the order received. *)
Theorem poll_loop_stops_at_short_page :
  forall (get_ : nat -> OIParams -> OIReply) (pages : nat -> list Snapshot) (k fuel : nat),
    (forall j ps, (j < k)%nat ->
       get_ j ps = OIPage (pages j) /\ (500 <= List.length (pages j))%nat) ->
    (forall ps, get_ k ps = OIPage (pages k)) ->
    (List.length (pages k) < 500)%nat ->
    (k < fuel)%nat ->
    exists st,
      poll_loop fuel get_ initial_poll = Some st /\
      oi_data st = flat_map pages (seq 0 (S k)) /\
      List.length (sent st) = S k.
Proof.
  intros get_ pages k fuel Hfull Hlast Hshort Hfuel.
  destruct (poll_loop_full_pages get_ k (fuel - k) pages initial_poll)
    as (st' & Hloop & Hdata & Hsent).
  { intros j ps Hj. simpl. now apply Hfull. }
  replace (k + (fuel - k))%nat with fuel in Hloop by lia.
  destruct (fuel - k)%nat as [| rest] eqn:E; [lia |].
  rewrite Hloop.
  rewrite (poll_loop_short rest get_ st' (pages k)).
  - eexists. split; [reflexivity |]. cbn [oi_data sent]. split.
    + rewrite Hdata. simpl oi_data. rewrite seq_S, flat_map_app. simpl.
      now rewrite app_nil_r.
    + rewrite length_app, Hsent. simpl. lia.
  - rewrite Hsent. simpl. apply Hlast.
  - exact Hshort.
Qed.

Lemma poll_loop_stops_at_short_page_witness :
  exists st,
    poll_loop 7 sample_oi_get initial_poll = Some st /\
    oi_data st
    = flat_map (fun j => match sample_oi_get j (params initial_poll) with
                         | OIPage data => data
                         | _ => []
                         end) (seq 0 3) /\
    List.length (sent st) = 3%nat.
Proof.
  apply (poll_loop_stops_at_short_page sample_oi_get
           (fun j => match sample_oi_get j (params initial_poll) with
                     | OIPage data => data
                     | _ => []
                     end) 2 7).
  - intros [| [| j]] ps Hj; try lia; (split; [reflexivity | vm_compute; lia]).
  - reflexivity.
  - vm_compute. lia.
  - lia.
Defined.

(** X18. A request that raises ends the polling early and what was
    collected so far is kept: after [k] full pages and a failing request
    the loop stops with the snapshots of those [k] pages. *)
Theorem poll_loop_keeps_partial_result :
  forall (get_ : nat -> OIParams -> OIReply) (pages : nat -> list Snapshot)
         (k fuel : nat) (e : string),
    (forall j ps, (j < k)%nat ->
       get_ j ps = OIPage (pages j) /\ (500 <= List.length (pages j))%nat) ->
    (forall ps, get_ k ps = OIFails e) ->
    (k < fuel)%nat ->
    exists st,
      poll_loop fuel get_ initial_poll = Some st /\
      oi_data st = flat_map pages (seq 0 k) /\
      List.length (sent st) = S k.
Proof.
  intros get_ pages k fuel e Hfull Hlast Hfuel.
  destruct (poll_loop_full_pages get_ k (fuel - k) pages initial_poll)
    as (st' & Hloop & Hdata & Hsent).
  { intros j ps Hj. simpl. now apply Hfull. }
  replace (k + (fuel - k))%nat with fuel in Hloop by lia.
  destruct (fuel - k)%nat as [| rest] eqn:E; [lia |].
  rewrite Hloop.
  rewrite (poll_loop_fails rest get_ st' e).
  - eexists. split; [reflexivity |]. cbn [oi_data sent]. split.
    + exact Hdata.
    + rewrite length_app, Hsent. simpl. lia.
  - rewrite Hsent. simpl. apply Hlast.
Qed.

Lemma poll_loop_keeps_partial_result_witness :
  let get_ : nat -> OIParams -> OIReply :=
    fun n _ => match n with
               | 0%nat => OIPage (page_of 1700000000000 500)
               | _ => OIFails "ConnectionError"
               end in
  exists st,
    poll_loop 2 get_ initial_poll = Some st /\
    oi_data st = flat_map (fun _ => page_of 1700000000000 500) (seq 0 1) /\
    List.length (sent st) = 2%nat.
Proof.
  intros get_.
  apply (poll_loop_keeps_partial_result get_ (fun _ => page_of 1700000000000 500)
           1 2 "ConnectionError").
  - intros [| j] ps Hj; [| lia]. split; [reflexivity | vm_compute; lia].
  - reflexivity.
  - lia.
Defined.

(** X19. Nothing bounds the number of requests: against an endpoint that
    answers every request with a page of at least 500 snapshots the loop
    never ends, however the cursor moves. *)
Theorem poll_loop_runs_on_full_pages :
  forall get_ : nat -> OIParams -> OIReply,
    (forall n ps, exists data,
        get_ n ps = OIPage data /\ (500 <= List.length data)%nat) ->
    forall (fuel : nat) (st : PollState), poll_loop fuel get_ st = None.
Proof.
  intros get_ Hfull fuel; induction fuel as [| fuel IH]; intros st.
  - reflexivity.
  - destruct (Hfull (List.length (sent st)) (params st)) as (data & Hg & Hlen).
    rewrite (poll_loop_full fuel get_ st data Hg Hlen). apply IH.
Qed.

Lemma poll_loop_runs_on_full_pages_witness :
  poll_loop 5 (fun _ _ => OIPage (page_of 1700000000000 500)) initial_poll = None.
Proof.
  apply poll_loop_runs_on_full_pages.
  intros n ps. eexists. split; [reflexivity | vm_compute; lia].
Defined.

(* ------------------------------------------------------------------ *)
(** ** Step 6: the left join, row by row *)

Lemma join_row_keys (right : DataFrame) (l : Row) :
  map timestamp_utc (join_row right l)
  = repeat (timestamp_utc l) (Nat.max 1 (matches right l)).
Proof.
  unfold join_row, matches.
  destruct (filter (fun r => timestamp_utc r =? timestamp_utc l) (rows right))
    as [| m ms]; [reflexivity |].
  assert (H : forall xs : list Row,
             map timestamp_utc
                 (map (fun r => mk_row (timestamp_utc l) (cells l ++ cells r)) xs)
             = repeat (timestamp_utc l) (List.length xs)).
  { induction xs as [| x xs IH]; simpl; [reflexivity | now rewrite IH]. }
  rewrite H. reflexivity.
Qed.

Lemma merge_left_keys (left right : DataFrame) :
  timestamps (merge_left left right)
  = flat_map (fun l => repeat (timestamp_utc l) (Nat.max 1 (matches right l)))
             (rows left).
Proof.
  unfold timestamps, merge_left; simpl.
  induction (rows left) as [| l ls IH]; simpl; [reflexivity |].
  now rewrite map_app, join_row_keys, IH.
Qed.

Lemma merge_left_keys_iff (left right : DataFrame) (k : Z) :
  In k (timestamps (merge_left left right)) <-> In k (timestamps left).
Proof.
  rewrite merge_left_keys. unfold timestamps.
  rewrite in_flat_map, in_map_iff. split.
  - intros (l & Hl & Hk). apply repeat_spec in Hk. eauto.
  - intros (l & <- & Hl). exists l. split; [exact Hl |].
    destruct (Nat.max 1 (matches right l)) eqn:E; [lia | now left].
Qed.

Lemma merge_left_keys_unique (left right : DataFrame) :
  NoDup (timestamps right) ->
  timestamps (merge_left left right) = timestamps left.
Proof.
  intros Hnd. unfold timestamps. rewrite merge_left_rows_unique by exact Hnd.
  rewrite map_map. reflexivity.
Qed.

Lemma col_index_app_fresh (c : string) (cols more : list string) :
  ~ In c cols ->
  col_index c (cols ++ more)
  = match col_index c more with
    | Some j => Some (List.length cols + j)%nat
    | None => None
    end.
Proof.
  induction cols as [| x cols IH]; simpl; intros Hnot.
  - destruct (col_index c more); reflexivity.
  - destruct (String.eqb c x) eqn:E.
    + apply String.eqb_eq in E. exfalso. apply Hnot. left. now symmetry.
    + rewrite IH by tauto. destruct (col_index c more); reflexivity.
Qed.

(** A cell the right table brings sits behind the left row's cells. *)
Lemma cell_at_extended (left right : DataFrame) (l : Row) (e : list Cell) (c : string) :
  List.length (cells l) = List.length (columns left) ->
  ~ In c (columns left) ->
  cell_at (merge_left left right) c (extend l e)
  = match col_index c (columns right) with
    | Some j => nth_error e j
    | None => None
    end.
Proof.
  intros Hlen Hfresh. unfold cell_at. cbn [columns merge_left].
  rewrite col_index_app_fresh by exact Hfresh.
  destruct (col_index c (columns right)) as [j |]; [| reflexivity].
  unfold extend. cbn [cells]. rewrite <- Hlen.
  rewrite nth_error_app2 by lia. f_equal. lia.
Qed.

(** X20. The left join never drops a row of the left table and never
    reorders: each left row stands in the result once if the right table
    has no row or one row with its timestamp, and as many times in a row as
    the right table has rows with its timestamp otherwise (duplicate
    right keys multiply rows). *)
Theorem merge_left_row_multiplicity :
  forall left right : DataFrame,
    timestamps (merge_left left right)
    = flat_map (fun l => repeat (timestamp_utc l) (Nat.max 1 (matches right l)))
               (rows left).
Proof. exact merge_left_keys. Qed.

(** X21. A secondary series that shares no timestamp with the left table
    still gets its columns, filled with nulls in every row. *)
Theorem merge_left_disjoint_all_null :
  forall (left right : DataFrame) (c : string),
    well_formed left = true ->
    (forall l r, In l (rows left) -> In r (rows right) ->
                 timestamp_utc r <> timestamp_utc l) ->
    In c (columns right) ->
    ~ In c (columns left) ->
    In c (columns (merge_left left right)) /\
    all_null (merge_left left right) c.
Proof.
  intros left right c Hwf Hdis Hc Hfresh. split.
  - simpl. apply in_or_app. now right.
  - intros x Hx. simpl in Hx. apply in_flat_map in Hx. destruct Hx as (l & Hl & Hx).
    rewrite join_row_unmatched in Hx by (intros r Hr; now apply Hdis).
    destruct Hx as [<- | []].
    rewrite cell_at_extended by (try assumption; now apply well_formed_row).
    apply col_index_In in Hc. destruct Hc as [j Hj]. rewrite Hj.
    apply col_index_bound in Hj. unfold nulls.
    rewrite nth_error_repeat by exact Hj. reflexivity.
Qed.

Lemma merge_left_disjoint_all_null_witness :
  let left := normalize_klines [DataLine oct1; DataLine oct2] in
  let right := normalize_funding [sep_funding] in
  In "fundingRate"%string (columns (merge_left left right)) /\
  all_null (merge_left left right) "fundingRate".
Proof.
  intros left right. apply merge_left_disjoint_all_null.
  - reflexivity.
  - intros l r [<- | [<- | []]] [<- | []]; discriminate.
  - now left.
  - unfold left; simpl. intuition discriminate.
Defined.

(** X22. Where the timestamps are equal the join carries the right row's
    values over: for a left row and a right row with the same timestamp the
    result holds the left row extended by the right row's cells, and in it
    every column the right table adds reads as in the right table. *)
Theorem merge_left_carries_match :
  forall (left right : DataFrame) (l r : Row) (c : string),
    well_formed left = true ->
    In l (rows left) ->
    In r (rows right) ->
    timestamp_utc r = timestamp_utc l ->
    ~ In c (columns left) ->
    In (extend l (cells r)) (rows (merge_left left right)) /\
    cell_at (merge_left left right) c (extend l (cells r)) = cell_at right c r.
Proof.
  intros left right l r c Hwf Hl Hr Hts Hfresh. split.
  - simpl. apply in_flat_map. exists l. split; [exact Hl |].
    unfold join_row.
    assert (Hin : In r (filter (fun x => timestamp_utc x =? timestamp_utc l) (rows right))).
    { apply filter_In. split; [exact Hr | now apply Z.eqb_eq]. }
    destruct (filter (fun x => timestamp_utc x =? timestamp_utc l) (rows right))
      as [| m ms]; [destruct Hin |].
    apply in_map_iff. exists r. split; [reflexivity | exact Hin].
  - rewrite cell_at_extended by (try assumption; now apply well_formed_row).
    unfold cell_at. destruct (col_index c (columns right)); reflexivity.
Qed.

Lemma merge_left_carries_match_witness :
  let left := normalize_klines [DataLine sep1; DataLine sep2] in
  let right := normalize_funding [sep_funding] in
  let r := mk_row (fundingTime sep_funding) [Val (fundingRate sep_funding)] in
  In (extend (kline_row sep1) (cells r)) (rows (merge_left left right)) /\
  cell_at (merge_left left right) "fundingRate" (extend (kline_row sep1) (cells r))
  = cell_at right "fundingRate" r.
Proof.
  intros left right r. apply merge_left_carries_match.
  - reflexivity.
  - now left.
  - now left.
  - reflexivity.
  - unfold left; simpl. intuition discriminate.
Defined.

Lemma merge_if_keys_unique (secondary : option DataFrame) (full : DataFrame) :
  (forall s, secondary = Some s -> NoDup (timestamps s)) ->
  timestamps (merge_if secondary full) = timestamps full.
Proof.
  destruct secondary as [s |]; simpl; intros H; [| reflexivity].
  apply merge_left_keys_unique. now apply H.
Qed.

Lemma ffill_keys (c : string) (df : DataFrame) :
  timestamps (ffill c df) = timestamps df.
Proof.
  unfold ffill, timestamps. destruct (col_index c (columns df)); [| reflexivity].
  simpl. apply ffill_rows_keys.
Qed.

Lemma merge_funding_keys_unique (funding : option DataFrame) (full : DataFrame) :
  (forall f, funding = Some f -> NoDup (timestamps f)) ->
  timestamps (merge_funding funding full) = timestamps full.
Proof.
  destruct funding as [f |]; simpl; intros H; [| reflexivity].
  rewrite ffill_keys. apply merge_left_keys_unique. now apply H.
Qed.

(** X23. Step 6 keeps the rows of the primary series one for one, in
    their order ([len(full)] stays [initial_count]), as soon as the funding
    and open-interest series have no repeated timestamp; the mark and index
    series cannot spoil it, since [validate_data] has removed their
    duplicates. *)
Theorem step6_keeps_primary_rows :
  forall (df : DataFrame) (mark index funding df_oi : option DataFrame),
    (forall f, funding = Some f -> NoDup (timestamps f)) ->
    (forall o, df_oi = Some o -> NoDup (timestamps o)) ->
    timestamps (step6 df (validated mark) (validated index) funding df_oi)
    = timestamps df /\
    List.length (rows (step6 df (validated mark) (validated index) funding df_oi))
    = List.length (rows df).
Proof.
  intros df mark index funding df_oi Hf Ho.
  assert (Hv : forall m s, validated m = Some s -> NoDup (timestamps s)).
  { intros [d |] s E; simpl in E; [| discriminate].
    injection E as <-. apply validate_data_NoDup. }
  assert (H : timestamps (step6 df (validated mark) (validated index) funding df_oi)
              = timestamps df).
  { unfold step6.
    rewrite merge_if_keys_unique by exact Ho.
    rewrite merge_funding_keys_unique by exact Hf.
    rewrite !merge_if_keys_unique by (apply Hv). reflexivity. }
  split; [exact H |].
  unfold timestamps in H. apply (f_equal (@List.length Z)) in H.
  now rewrite !length_map in H.
Qed.

Lemma step6_keeps_primary_rows_witness :
  let df := normalize_klines [DataLine oct1; DataLine sep1; DataLine sep2] in
  let funding := Some (normalize_funding [sep_funding]) in
  timestamps (step6 df (validated None) (validated None) funding None) = timestamps df /\
  List.length (rows (step6 df (validated None) (validated None) funding None))
  = List.length (rows df).
Proof.
  intros df funding. apply step6_keeps_primary_rows.
  - intros f E. injection E as <-. unfold timestamps; simpl.
    repeat constructor. simpl; tauto.
  - intros o E. discriminate.
Defined.

(* ------------------------------------------------------------------ *)
(** ** Step 6: the forward fill *)

Lemma col_index_nth (c : string) (cols : list string) (i : nat) :
  col_index c cols = Some i -> nth_error cols i = Some c.
Proof.
  revert i; induction cols as [| x cols IH]; simpl; intros i.
  - discriminate.
  - destruct (String.eqb c x) eqn:E.
    + intros H; injection H as <-. apply String.eqb_eq in E. now subst.
    + destruct (col_index c cols) as [j |]; [| discriminate].
      intros H; injection H as <-. simpl. now apply IH.
Qed.

Lemma nth_set_nth (i : nat) (x : Cell) (l : list Cell) :
  nth i (set_nth i x l) Null = x \/
  (nth i (set_nth i x l) Null = Null /\ (List.length l <= i)%nat).
Proof.
  destruct (Nat.lt_ge_cases i (List.length l)) as [Hlt | Hge].
  - left. now apply nth_set_nth_same.
  - right. split; [| exact Hge]. apply nth_overflow. now rewrite set_nth_length.
Qed.

Lemma set_nth_twice {A : Type} (i : nat) (x : A) (l : list A) :
  set_nth i x (set_nth i x l) = set_nth i x l.
Proof.
  revert i; induction l as [| y l IH]; intros i; simpl.
  - reflexivity.
  - destruct i; simpl; [reflexivity | now rewrite IH].
Qed.

Lemma ffill_rows_twice (i : nat) (rs : list Row) :
  forall prev, ffill_rows i prev (ffill_rows i prev rs) = ffill_rows i prev rs.
Proof.
  induction rs as [| r rs IH]; intros prev; simpl.
  - reflexivity.
  - destruct (nth i (cells r) Null) as [| q] eqn:E; cbn [ffill_rows cells timestamp_utc].
    + destruct (nth_set_nth i prev (cells r)) as [H | [H Hlen]]; rewrite H.
      * destruct prev as [| q].
        -- now rewrite set_nth_twice, IH.
        -- rewrite IH. reflexivity.
      * now rewrite set_nth_twice, IH.
    + rewrite E, IH. reflexivity.
Qed.

(** X24. What [ffill] does to the column it fills: in a table with one
    cell per column the filled column of row [n] holds the last non-null
    value that the column had in rows 0 to [n], in the order the rows stand
    in, and null while there has been none; every other column is left as
    it was. *)
Theorem ffill_carries_last_known :
  forall (df : DataFrame) (c : string),
    well_formed df = true ->
    In c (columns df) ->
    (forall n r', nth_error (rows (ffill c df)) n = Some r' ->
                  cell_at (ffill c df) c r' = Some (last_known df c n)) /\
    (forall c', c' <> c -> column (ffill c df) c' = column df c').
Proof.
  intros df c Hwf Hc.
  apply col_index_In in Hc. destruct Hc as [i Hi].
  pose proof (col_index_bound _ _ _ Hi) as Hbound.
  assert (Hcells : forall r, In r (rows df) -> (i < List.length (cells r))%nat).
  { intros r Hr. now rewrite (well_formed_row df r Hwf Hr). }
  unfold ffill, last_known. rewrite Hi. split.
  - intros n r' Hn. cbn [rows] in Hn. unfold cell_at. cbn [columns]. rewrite Hi.
    rewrite <- (ffill_rows_spec i (rows df) Hcells n Null r' Hn).
    apply nth_error_nth'.
    assert (Hr' : In r' (ffill_rows i Null (rows df))) by (eapply nth_error_In; eauto).
    rewrite (ffill_rows_cells_length i (List.length (columns df)) Null (rows df)); auto.
    intros r Hr. now apply well_formed_row.
  - intros c' Hne. unfold column, cell_at. cbn [columns rows].
    destruct (col_index c' (columns df)) as [j |] eqn:Ej.
    + apply ffill_rows_other. intros ->. apply Hne.
      apply col_index_nth in Hi, Ej. congruence.
    + now rewrite !map_const, ffill_rows_length.
Qed.

Lemma ffill_carries_last_known_witness :
  let df := mk_df ["open"; "fundingRate"]%string
                  [mk_row 0 [Val 1; Null]; mk_row 60000 [Val 2; Val (1 # 10000)];
                   mk_row 120000 [Val 3; Null]] in
  (forall n r', nth_error (rows (ffill "fundingRate" df)) n = Some r' ->
                cell_at (ffill "fundingRate" df) "fundingRate" r'
                = Some (last_known df "fundingRate" n)) /\
  (forall c', c' <> "fundingRate"%string ->
              column (ffill "fundingRate" df) c' = column df c').
Proof.
  intros df. apply ffill_carries_last_known.
  - reflexivity.
  - right. now left.
Defined.

(** X25. Forward fill is idempotent: filling a filled column again
    changes nothing. *)
Theorem ffill_idempotent :
  forall (c : string) (df : DataFrame), ffill c (ffill c df) = ffill c df.
Proof.
  intros c df. unfold ffill.
  destruct (col_index c (columns df)) as [i |] eqn:Ei.
  - cbn [columns rows]. rewrite Ei. now rewrite ffill_rows_twice.
  - now rewrite Ei.
Qed.

(** X26. Filling [fundingRate] right after the funding join, before the
    open-interest join as the script does, gives the same table as filling
    it after all the joins are done. *)
Theorem fill_before_or_after_open_interest_join :
  forall full funding df_oi : DataFrame,
    well_formed full = true ->
    well_formed funding = true ->
    In "fundingRate"%string (columns full ++ columns funding) ->
    merge_if (Some df_oi) (merge_funding (Some funding) full)
    = ffill "fundingRate" (merge_left (merge_left full funding) df_oi).
Proof.
  intros full funding df_oi Hwf Hwf' Hc. simpl.
  apply ffill_commutes_with_join.
  - now apply merge_left_well_formed.
  - exact Hc.
Qed.

Lemma fill_before_or_after_open_interest_join_witness :
  let full := normalize_klines [DataLine oct1; DataLine sep1; DataLine sep2] in
  let funding := normalize_funding [sep_funding] in
  let df_oi := normalize_oi [mk_snapshot 1567296060000 (250000 # 1);
                             mk_snapshot 1567296060000 (250001 # 1)] in
  merge_if (Some df_oi) (merge_funding (Some funding) full)
  = ffill "fundingRate" (merge_left (merge_left full funding) df_oi).
Proof.
  intros full funding df_oi. apply fill_before_or_after_open_interest_join.
  - reflexivity.
  - reflexivity.
  - apply in_or_app. right. now left.
Defined.

(* ------------------------------------------------------------------ *)
(** ** Step 7: the OHLC check *)

(** X27. On a row whose four prices are numbers the OHLC check passes
    exactly when [low <= open <= high] and [low <= close <= high]; the
    first of the five comparisons, [high < low], can never be the only one
    to fire. *)
Theorem invalid_ohlc_passes_iff :
  forall (df : DataFrame) (r : Row) (o h l c : Q),
    get df "open" r = Val o ->
    get df "high" r = Val h ->
    get df "low" r = Val l ->
    get df "close" r = Val c ->
    (invalid_ohlc df r = false <->
     (l <= o /\ o <= h /\ l <= c /\ c <= h)%Q).
Proof.
  intros df r o h l c Ho Hh Hl Hc.
  unfold invalid_ohlc. rewrite Ho, Hh, Hl, Hc. unfold cell_ltb.
  rewrite !orb_false_iff, !negb_false_iff, !Qle_bool_iff.
  split.
  - tauto.
  - intros (H1 & H2 & H3 & H4). repeat split; try assumption.
    now apply Qle_trans with o.
Qed.

Lemma invalid_ohlc_passes_iff_witness :
  invalid_ohlc (normalize_klines [DataLine sep1]) (kline_row sep1) = false <->
  ((171 # 1) <= (172 # 1) /\ (172 # 1) <= (173 # 1) /\
   (171 # 1) <= (1725 # 10) /\ (1725 # 10) <= (173 # 1))%Q.
Proof.
  apply (invalid_ohlc_passes_iff (normalize_klines [DataLine sep1]) (kline_row sep1));
    reflexivity.
Defined.

(* ------------------------------------------------------------------ *)
(** ** The timestamps of the table written *)

Lemma dropna_In {A : Type} (ls : list (RawLine A)) (a : A) :
  In a (dropna ls) <-> In (DataLine a) ls.
Proof.
  induction ls as [| [| b] ls IH]; simpl.
  - tauto.
  - rewrite IH. split; [auto | intros [H | H]; [discriminate | exact H]].
  - rewrite IH. split.
    + intros [-> | H]; auto.
    + intros [H | H]; [injection H as ->; now left | now right].
Qed.

Lemma validate_data_keys (df : DataFrame) (k : Z) :
  In k (timestamps (fst (validate_data df))) <-> In k (timestamps df).
Proof.
  destruct (validate_data_rows df) as [-> | ->]; [tauto |].
  unfold timestamps, drop_duplicates; simpl.
  rewrite drop_duplicates_from_keys. simpl. tauto.
Qed.

Lemma step7_keys (full : DataFrame) (k : Z) :
  In k (timestamps (step7 full)) <-> In k (timestamps full).
Proof.
  unfold timestamps, step7, drop_duplicates, sort_values; simpl.
  rewrite drop_duplicates_from_keys. split.
  - intros [H _]. revert H.
    apply Permutation_in, Permutation_map, Permutation_sym, sort_rows_perm.
  - intros H. split; [| intros []].
    revert H. apply Permutation_in, Permutation_map, sort_rows_perm.
Qed.

Lemma merge_if_keys (secondary : option DataFrame) (full : DataFrame) (k : Z) :
  In k (timestamps (merge_if secondary full)) <-> In k (timestamps full).
Proof.
  destruct secondary; simpl; [apply merge_left_keys_iff | tauto].
Qed.

Lemma step6_keys (df : DataFrame) (mark index funding df_oi : option DataFrame) (k : Z) :
  In k (timestamps (step6 df mark index funding df_oi)) <-> In k (timestamps df).
Proof.
  unfold step6. rewrite merge_if_keys.
  destruct funding as [f |]; simpl.
  - rewrite ffill_keys, merge_left_keys_iff, !merge_if_keys. tauto.
  - rewrite !merge_if_keys. tauto.
Qed.

Lemma pipeline_keys (fuel : nat) (w : World) (raw : list (RawLine KlineLine))
      (out : Output) :
  fetch_binance_zip_parallel w (csv_klines w) "klines" = Ret (Some raw) ->
  pipeline fuel w = Done out ->
  forall k, In k (timestamps (table out)) <->
            exists line, In (DataLine line) raw /\ open_time line = k.
Proof.
  intros Hk Hout k.
  destruct (pipeline_done fuel w out Hout)
    as (raw' & m & i & f & st & df_oi & Hk' & _ & _ & _ & _ & _ & Ht).
  rewrite Hk in Hk'. injection Hk' as <-.
  rewrite Ht, step7_keys, step6_keys, validate_data_keys.
  unfold timestamps, normalize_klines. cbn [rows]. rewrite map_map. cbn [kline_row timestamp_utc].
  rewrite in_map_iff. split.
  - intros (line & <- & Hl). exists line. split; [now apply dropna_In | reflexivity].
  - intros (line & Hl & <-). exists line. split; [reflexivity | now apply dropna_In].
Qed.

(** X28. End to end, the table written holds exactly the minutes of the
    kline data: a timestamp is in the final table if and only if some
    fetched kline data line has it as [open_time].  No secondary series,
    present or absent, with or without repeated timestamps, adds or removes
    a minute. *)
Theorem pipeline_timestamps_are_the_kline_minutes :
  forall (fuel : nat) (w : World) (raw : list (RawLine KlineLine)) (out : Output),
    fetch_binance_zip_parallel w (csv_klines w) "klines" = Ret (Some raw) ->
    pipeline fuel w = Done out ->
    forall k, In k (timestamps (table out)) <->
              exists line, In (DataLine line) raw /\ open_time line = k.
Proof. exact pipeline_keys. Qed.

Lemma pipeline_timestamps_are_the_kline_minutes_witness :
  exists out,
    pipeline 1 sample_world = Done out /\
    forall k, In k (timestamps (table out)) <->
              exists line,
                In (DataLine line)
                   [DataLine oct1; DataLine oct2; HeaderLine; DataLine sep1; DataLine sep2]
                /\ open_time line = k.
Proof.
  eexists. split; [vm_compute; reflexivity |].
  apply (pipeline_timestamps_are_the_kline_minutes 1 sample_world).
  - vm_compute. reflexivity.
  - vm_compute. reflexivity.
Defined.

Lemma strictly_sorted_unique (l l' : list Z) :
  StronglySorted Z.lt l -> StronglySorted Z.lt l' ->
  (forall k, In k l <-> In k l') ->
  l = l'.
Proof.
  intros Hl; revert l'; induction Hl as [| a t Ht IH Ha]; intros l' Hl' Hsame.
  - destruct l' as [| b t']; [reflexivity |].
    exfalso. apply (proj2 (Hsame b)). now left.
  - destruct Hl' as [| b t' Ht' Hb].
    + exfalso. apply (proj1 (Hsame a)). now left.
    + rewrite Forall_forall in Ha, Hb.
      assert (Hab : a = b).
      { destruct (proj1 (Hsame a) (or_introl eq_refl)) as [E | Hin]; [now symmetry |].
        destruct (proj2 (Hsame b) (or_introl eq_refl)) as [E | Hin']; [exact E |].
        specialize (Ha b Hin'). specialize (Hb a Hin). lia. }
      subst b. f_equal. apply IH; [exact Ht' |].
      intros k. split; intros Hk.
      * destruct (proj1 (Hsame k) (or_intror Hk)) as [E | Hin]; [| exact Hin].
        specialize (Ha k Hk). lia.
      * destruct (proj2 (Hsame k) (or_intror Hk)) as [E | Hin]; [| exact Hin].
        specialize (Hb k Hk). lia.
Qed.

Lemma step7_keys_strict (full : DataFrame) :
  StronglySorted Z.lt (timestamps (step7 full)).
Proof.
  unfold timestamps, step7, drop_duplicates, sort_values; simpl.
  apply dedupe_of_any_sorted_strict, sort_rows_sorted.
Qed.

(** X29. The order in which the kline downloads complete never shows in
    the timestamps of the table written: two completed runs over the same
    archives, whose completion orders are permutations of one another,
    write tables with the same [timestamp_utc] column. *)
Theorem pipeline_timestamps_ignore_completion_order :
  forall (fuel fuel' : nat) (w : World) (order : list Url -> list Url) (out out' : Output),
    Permutation (as_completed w (archive_urls "klines" START (today w)))
                (order (archive_urls "klines" START (today w))) ->
    pipeline fuel w = Done out ->
    pipeline fuel' (with_order w order) = Done out' ->
    timestamps (table out) = timestamps (table out').
Proof.
  intros fuel fuel' w order out out' Hperm Hout Hout'.
  destruct (pipeline_done fuel w out Hout)
    as (raw & m & i & f & st & df_oi & Hk & _ & _ & _ & _ & _ & Ht).
  destruct (pipeline_done fuel' (with_order w order) out' Hout')
    as (raw' & m' & i' & f' & st' & df_oi' & Hk' & _ & _ & _ & _ & _ & Ht').
  pose proof (fetch_order_same_rows _ w order (csv_klines w) "klines" Hperm) as Hsame.
  cbn [csv_klines with_order] in Hk'. rewrite Hk, Hk' in Hsame. simpl in Hsame.
  apply strictly_sorted_unique.
  - rewrite Ht. apply step7_keys_strict.
  - rewrite Ht'. apply step7_keys_strict.
  - intros k.
    rewrite (pipeline_keys fuel w raw out Hk Hout k).
    rewrite (pipeline_keys fuel' (with_order w order) raw' out' Hk' Hout' k).
    split; intros (line & Hl & E); exists line; split; try exact E.
    + revert Hl. now apply Permutation_in.
    + revert Hl. now apply Permutation_in, Permutation_sym.
Qed.

Lemma pipeline_timestamps_ignore_completion_order_witness :
  exists out out',
    pipeline 1 sample_world = Done out /\
    pipeline 1 (with_order sample_world (fun urls => urls)) = Done out' /\
    timestamps (table out) = timestamps (table out').
Proof.
  eexists. eexists.
  split; [vm_compute; reflexivity |]. split; [vm_compute; reflexivity |].
  apply (pipeline_timestamps_ignore_completion_order 1 1 sample_world (fun urls => urls)).
  - vm_compute. apply Permutation_rev.
  - vm_compute. reflexivity.
  - vm_compute. reflexivity.
Defined.
